(** * A shallow embedding of [stock_screener.py]

    The screener keeps the list of stock records it fetched from an HTTP
    endpoint and offers three filters over it (P/E range, sector, dividend
    yield) and a JSON export.  Python is dynamically typed, so the embedding
    works on the Python values that [response.json()] can produce, and every
    operation that Python can reject at run time returns a [result].

    The methods are state transformers on a [machine]: the store of objects,
    the two attributes of the screener, the files, and the trace of what the
    program asked of the outside.  The standard [json] module, which the
    program calls in both directions, is embedded as the library documents
    and implements it.  What stays outside: the limits of the interpreter
    (recursion depth, the number of digits of an [int] literal), and the
    wording of the printed lines. *)

From Stdlib Require Import ZArith QArith Lia String Ascii.
From Stdlib Require Import PrimFloat SpecFloat FloatOps FloatAxioms.
From Stdlib Require DecimalPos DecimalZ.
From stdpp Require Import base option list gmap.

Local Open Scope Z_scope.
Local Open Scope list_scope.
Local Set Warnings "-register-all,-inexact-float".

(** ** Python values *)

(** A Python [str] is a sequence of Unicode code points. *)
Definition str := list N.

(** The [str] of an ASCII literal. *)
Definition str_of (s : string) : str :=
  map N_of_ascii (list_ascii_of_string s).

(** The values [json.loads] builds: [None], [bool], [int], [float] (a
    binary64, here Rocq's primitive float), [str], [list] and [dict].  A
    [dict] keeps its insertion order, so it is a list of bindings; a
    well-formed one has no repeated key ([wf_value] below). *)
Inductive value :=
| VNone
| VBool (b : bool)
| VInt (z : Z)
| VFloat (f : float)
| VStr (s : str)
| VList (l : list value)
| VDict (d : list (str * value)).

Definition dict := list (str * value).

(** The exceptions the program can meet. *)
Inductive exn :=
| TypeError
| AttributeError
| ConnectionError
| JSONDecodeError
| OSError
| UnicodeEncodeError.

Inductive result (A : Type) :=
| Ok (a : A)
| Raise (e : exn).
Arguments Ok {A} a.
Arguments Raise {A} e.

Definition rbind {A B} (r : result A) (k : A -> result B) : result B :=
  match r with
  | Ok a => k a
  | Raise e => Raise e
  end.

Notation "'let*' x ':=' e 'in' k" := (rbind e (fun x => k))
  (at level 10, x name, e at level 200, k at level 200).

(** ** Numbers and their order

    Python compares [int], [bool] and [float] by their exact mathematical
    value; a float is a dyadic rational, an infinity or NaN.  [xnum] is that
    common domain. *)
Inductive xnum :=
| XFin (q : Q)
| XInf (negative : bool)
| XNaN.

Definition float_to_xnum (f : float) : xnum :=
  match Prim2SF f with
  | S754_zero _ => XFin 0
  | S754_infinity s => XInf s
  | S754_nan => XNaN
  | S754_finite s m e =>
      XFin (inject_Z (if s then Z.neg m else Z.pos m) * Qpower 2 e)
  end.

Definition as_number (v : value) : option xnum :=
  match v with
  | VBool b => Some (XFin (if b then 1 else 0))
  | VInt z => Some (XFin (inject_Z z))
  | VFloat f => Some (float_to_xnum f)
  | _ => None
  end.

(** [None] when the two numbers are unordered, that is when one is NaN. *)
Definition xcompare (x y : xnum) : option comparison :=
  match x, y with
  | XNaN, _ | _, XNaN => None
  | XFin p, XFin q => Some (Qcompare p q)
  | XInf a, XInf b =>
      Some (if a then (if b then Eq else Lt) else (if b then Gt else Eq))
  | XInf a, XFin _ => Some (if a then Lt else Gt)
  | XFin _, XInf b => Some (if b then Gt else Lt)
  end.

(** The ordering operators of the source: [<], [<=], [>], [>=]. *)
Inductive cmpop := OpLt | OpLe | OpGt | OpGe.

Definition cmp_holds (op : cmpop) (c : comparison) : bool :=
  match op, c with
  | OpLt, Lt | OpLe, Lt | OpLe, Eq | OpGt, Gt | OpGe, Gt | OpGe, Eq => true
  | _, _ => false
  end.

Definition xnum_cmp (op : cmpop) (x y : xnum) : bool :=
  match xcompare x y with
  | Some c => cmp_holds op c
  | None => false
  end.

Definition xnum_eqb (x y : xnum) : bool :=
  match xcompare x y with
  | Some Eq => true
  | _ => false
  end.

(** Code-point order on strings. *)
Fixpoint str_compare (s t : str) : comparison :=
  match s, t with
  | [], [] => Eq
  | [], _ :: _ => Lt
  | _ :: _, [] => Gt
  | a :: s', b :: t' =>
      match N.compare a b with
      | Eq => str_compare s' t'
      | c => c
      end
  end.

Fixpoint dict_lookup (k : str) (d : dict) : option value :=
  match d with
  | [] => None
  | (k', v) :: d' => if bool_decide (k' = k) then Some v else dict_lookup k d'
  end.

(** ** [==]

    Numbers are equal when their values are; strings and lists when their
    items are; dicts when they bind the same keys to equal values; values of
    different kinds are different.

    CPython compares the items of two lists, and the values of two dicts,
    by identity first: an item is equal to itself.  That differs from the
    comparison of the values only for NaN, which is not equal to itself by
    value, and values carry no identity here.  [py_eq] is therefore [==]
    wherever one of the two sides holds no NaN ([no_nan] below): an item
    the two sides share is then no NaN and holds none, and is equal to
    itself by value as well.  Where both sides hold a NaN the outcome of
    [==] depends on whether it is the same object (every NaN that [json]
    parses is one object), and nothing is stated. *)
Fixpoint py_eq (a b : value) {struct a} : bool :=
  match a, b with
  | VNone, VNone => true
  | VStr s, VStr t => bool_decide (s = t)
  | VList l1, VList l2 =>
      (fix items (l1 l2 : list value) {struct l1} : bool :=
         match l1, l2 with
         | [], [] => true
         | x :: l1', y :: l2' => py_eq x y && items l1' l2'
         | _, _ => false
         end) l1 l2
  | VDict d1, VDict d2 =>
      Nat.eqb (length d1) (length d2) &&
      (fix bindings (d : list (str * value)) {struct d} : bool :=
         match d with
         | [] => true
         | (k, v) :: d' =>
             match dict_lookup k d2 with
             | Some w => py_eq v w
             | None => false
             end && bindings d'
         end) d1
  | (VBool _ | VInt _ | VFloat _), (VBool _ | VInt _ | VFloat _) =>
      match as_number a, as_number b with
      | Some x, Some y => xnum_eqb x y
      | _, _ => false
      end
  | _, _ => false
  end.

(** ** Ordering comparisons

    Defined between two numbers, two strings and two lists; any other pair
    raises [TypeError].  Lists compare by their first pair of unequal items,
    or by length when one is a prefix of the other. *)
Fixpoint py_richcmp (op : cmpop) (a b : value) {struct a} : result bool :=
  match a, b with
  | VStr s, VStr t => Ok (cmp_holds op (str_compare s t))
  | VList l1, VList l2 =>
      (fix items (l1 l2 : list value) {struct l1} : result bool :=
         match l1, l2 with
         | [], [] => Ok (cmp_holds op Eq)
         | [], _ :: _ => Ok (cmp_holds op Lt)
         | _ :: _, [] => Ok (cmp_holds op Gt)
         | x :: l1', y :: l2' =>
             if py_eq x y then items l1' l2' else py_richcmp op x y
         end) l1 l2
  | _, _ =>
      match as_number a, as_number b with
      | Some x, Some y => Ok (xnum_cmp op x y)
      | _, _ => Raise TypeError
      end
  end.

(** ** Truth value, [len], iteration, [dict.get] *)

Definition float_is_zero (f : float) : bool :=
  match Prim2SF f with
  | S754_zero _ => true
  | _ => false
  end.

Definition py_truthy (v : value) : bool :=
  match v with
  | VNone => false
  | VBool b => b
  | VInt z => negb (Z.eqb z 0)
  | VFloat f => negb (float_is_zero f)
  | VStr s => negb (Nat.eqb (length s) 0)
  | VList l => negb (Nat.eqb (length l) 0)
  | VDict d => negb (Nat.eqb (length d) 0)
  end.

Definition is_None (v : value) : bool :=
  match v with
  | VNone => true
  | _ => false
  end.

Definition py_len (v : value) : result nat :=
  match v with
  | VStr s => Ok (length s)
  | VList l => Ok (length l)
  | VDict d => Ok (length d)
  | _ => Raise TypeError
  end.

(** The items a [for] loop or a comprehension visits. *)
Definition py_iter (v : value) : result (list value) :=
  match v with
  | VList l => Ok l
  | VDict d => Ok (map (fun kv => VStr (fst kv)) d)
  | VStr s => Ok (map (fun c => VStr [c]) s)
  | _ => Raise TypeError
  end.

(** [s.get(key, default)]: only a dict has the method. *)
Definition py_get (s : value) (key : str) (default : value) : result value :=
  match s with
  | VDict d => Ok (match dict_lookup key d with
                   | Some v => v
                   | None => default
                   end)
  | _ => Raise AttributeError
  end.

(** ** JSON text

    [json.dump(stocks, f, ensure_ascii=False, indent=3)] and
    [response.json()] are the standard [json] module.  Its two directions
    are embedded here over code points: the encoder with the separators and
    the indentation the call selects, and the decoder for the JSON grammar
    with the module's [NaN], [Infinity] and [-Infinity] literals.  The
    shortest-digits printing of a float and the correctly rounded reading of
    a decimal literal are the interpreter's own ([float.__repr__], [float]);
    they are taken from the platform. *)

Record float_codec := {
  float_repr : float -> str;
  float_of_literal : str -> float
}.

(** Characters are code points.  34 is the double quote, 92 the backslash,
    47 the slash; 44 the comma and 58 the colon; 91 and 93 the brackets, 123
    and 125 the braces; 32 the space, 9, 10 and 13 the tab, the line feed
    and the carriage return, 8 and 12 the backspace and the form feed; 48
    to 57 the digits, 43, 45 and 46 the signs and the dot, 69 and 101 the
    letter of the exponent; 117 is [u], and 98, 102, 110, 114, 116 are the
    letters [b f n r t] of the short escapes. *)
Section Characters.
Local Open Scope N_scope.

Definition is_digit (c : N) : bool := (48 <=? c) && (c <=? 57).

(** The characters a number literal is made of: digits and [+-.eE]. *)
Definition is_number_char (c : N) : bool :=
  is_digit c || (c =? 43) || (c =? 45) || (c =? 46) || (c =? 69) || (c =? 101).

Definition is_ws (c : N) : bool :=
  (c =? 32) || (c =? 9) || (c =? 10) || (c =? 13).

Definition is_surrogate (c : N) : bool := (55296 <=? c) && (c <=? 57343).

Definition hex_digit (n : N) : N := if n <? 10 then 48 + n else 87 + n.

Definition hex_value (c : N) : option N :=
  if is_digit c then Some (c - 48)
  else if (97 <=? c) && (c <=? 102) then Some (c - 87)
  else if (65 <=? c) && (c <=? 70) then Some (c - 55)
  else None.

(** [ESCAPE_DCT] of [json.encoder]: the quote, the backslash and the
    control characters are escaped, everything else is written as it is. *)
Definition escape_char (c : N) : str :=
  if c =? 34 then [92; 34]
  else if c =? 92 then [92; 92]
  else if c =? 10 then [92; 110]
  else if c =? 13 then [92; 114]
  else if c =? 9 then [92; 116]
  else if c =? 8 then [92; 98]
  else if c =? 12 then [92; 102]
  else if c <? 32 then [92; 117; 48; 48; hex_digit (c / 16); hex_digit (c mod 16)]
  else [c].

(** [BACKSLASH] of [json.decoder]: the character after a backslash. *)
Definition unescape_char (e : N) : option N :=
  if e =? 34 then Some 34
  else if e =? 92 then Some 92
  else if e =? 47 then Some 47
  else if e =? 98 then Some 8
  else if e =? 102 then Some 12
  else if e =? 110 then Some 10
  else if e =? 114 then Some 13
  else if e =? 116 then Some 9
  else None.

Definition hex4 (a b c d : N) : option N :=
  match hex_value a, hex_value b, hex_value c, hex_value d with
  | Some x, Some y, Some z, Some w => Some (((x * 16 + y) * 16 + z) * 16 + w)
  | _, _, _, _ => None
  end.

Definition is_high_surrogate (c : N) : bool := (55296 <=? c) && (c <=? 56319).
Definition is_low_surrogate (c : N) : bool := (56320 <=? c) && (c <=? 57343).

Definition join_surrogates (hi lo : N) : N :=
  65536 + N.lor (N.shiftl (hi - 55296) 10) (lo - 56320).
End Characters.

Definition encode_basestring (s : str) : str :=
  34%N :: flat_map escape_char s ++ [34%N].

Fixpoint uint_chars (d : Decimal.uint) : str :=
  match d with
  | Decimal.Nil => []
  | Decimal.D0 d' => 48%N :: uint_chars d'
  | Decimal.D1 d' => 49%N :: uint_chars d'
  | Decimal.D2 d' => 50%N :: uint_chars d'
  | Decimal.D3 d' => 51%N :: uint_chars d'
  | Decimal.D4 d' => 52%N :: uint_chars d'
  | Decimal.D5 d' => 53%N :: uint_chars d'
  | Decimal.D6 d' => 54%N :: uint_chars d'
  | Decimal.D7 d' => 55%N :: uint_chars d'
  | Decimal.D8 d' => 56%N :: uint_chars d'
  | Decimal.D9 d' => 57%N :: uint_chars d'
  end.

(** [int.__repr__] *)
Definition int_repr (z : Z) : str :=
  match Z.to_int z with
  | Decimal.Pos d => uint_chars d
  | Decimal.Neg d => 45%N :: uint_chars d
  end.

(** [floatstr] of [json.encoder] with [allow_nan] left at its default. *)
Definition floatstr (fc : float_codec) (f : float) : str :=
  match Prim2SF f with
  | S754_nan => str_of "NaN"
  | S754_infinity false => str_of "Infinity"
  | S754_infinity true => str_of "-Infinity"
  | _ => float_repr fc f
  end.

Definition newline_indent (level : nat) : str :=
  10%N :: repeat 32%N (3 * level).

(** [_iterencode] with [indent=3]: the item separator is a comma followed
    by a new line and the indentation, the key separator is [": "]. *)
Fixpoint encode (fc : float_codec) (level : nat) (v : value) {struct v} : str :=
  match v with
  | VNone => str_of "null"
  | VBool true => str_of "true"
  | VBool false => str_of "false"
  | VInt z => int_repr z
  | VFloat f => floatstr fc f
  | VStr s => encode_basestring s
  | VList [] => str_of "[]"
  | VList (x :: l) =>
      str_of "[" ++ newline_indent (S level) ++ encode fc (S level) x ++
      (fix items (l : list value) : str :=
         match l with
         | [] => []
         | y :: l' =>
             str_of "," ++ newline_indent (S level) ++ encode fc (S level) y ++
             items l'
         end) l ++
      newline_indent level ++ str_of "]"
  | VDict [] => str_of "{}"
  | VDict ((k, x) :: d) =>
      str_of "{" ++ newline_indent (S level) ++
      encode_basestring k ++ str_of ": " ++ encode fc (S level) x ++
      (fix bindings (d : list (str * value)) : str :=
         match d with
         | [] => []
         | (k', y) :: d' =>
             str_of "," ++ newline_indent (S level) ++
             encode_basestring k' ++ str_of ": " ++ encode fc (S level) y ++
             bindings d'
         end) d ++
      newline_indent level ++ str_of "}"
  end.

Definition json_dumps (fc : float_codec) (v : value) : str := encode fc 0 v.

(** *** Decoding *)

Fixpoint skip_ws (s : str) : str :=
  match s with
  | c :: s' => if is_ws c then skip_ws s' else s
  | [] => []
  end.

Fixpoint span (p : N -> bool) (s : str) : str * str :=
  match s with
  | c :: s' =>
      if p c then let (a, b) := span p s' in (c :: a, b) else ([], s)
  | [] => ([], [])
  end.

Fixpoint strip_prefix (p s : str) : option str :=
  match p, s with
  | [], _ => Some s
  | a :: p', b :: s' => if (a =? b)%N then strip_prefix p' s' else None
  | _ :: _, [] => None
  end.

Definition prepend (c : N) (r : option (str * str)) : option (str * str) :=
  match r with
  | Some (t, rest) => Some (c :: t, rest)
  | None => None
  end.

(** [scanstring] in strict mode, entered after the opening quote: the text
    of the string and what follows its closing quote.  A [\uXXXX] escape of
    a high surrogate followed by one of a low surrogate is one character. *)
Fixpoint scan_string (s : str) : option (str * str) :=
  match s with
  | [] => None
  | c :: s' =>
      if (c =? 34)%N then Some ([], s')
      else if (c =? 92)%N then
        match s' with
        | [] => None
        | e :: s'' =>
            if (e =? 117)%N then
              match s'' with
              | h1 :: h2 :: h3 :: h4 :: s3 =>
                  match hex4 h1 h2 h3 h4 with
                  | None => None
                  | Some uni =>
                      match s3 with
                      | b :: u :: l1 :: l2 :: l3 :: l4 :: s4 =>
                          if is_high_surrogate uni && (b =? 92)%N && (u =? 117)%N
                          then
                            match hex4 l1 l2 l3 l4 with
                            | Some uni2 =>
                                if is_low_surrogate uni2
                                then prepend (join_surrogates uni uni2) (scan_string s4)
                                else prepend uni (scan_string s3)
                            | None => None
                            end
                          else prepend uni (scan_string s3)
                      | _ => prepend uni (scan_string s3)
                      end
                  end
              | _ => None
              end
            else
              match unescape_char e with
              | Some x => prepend x (scan_string s'')
              | None => None
              end
        end
      else if (c <? 32)%N then None
      else prepend c (scan_string s')
  end.

(** Number literals: an optional minus sign; an integer part that is [0]
    or starts with a digit other than [0]; an optional fraction, a dot and
    one digit or more; an optional exponent, [e] or [E], an optional sign
    and one digit or more.  [number_kind] tells an integer literal
    ([false]) from a float literal ([true]). *)
Definition nonempty_digits (s : str) : bool :=
  negb (Nat.eqb (length s) 0) && forallb is_digit s.

Definition valid_int_part (s : str) : bool :=
  match s with
  | [] => false
  | c :: ds => if (c =? 48)%N then Nat.eqb (length ds) 0 else true
  end.

Definition valid_exponent (s : str) : bool :=
  match s with
  | [] => true
  | e :: r =>
      ((e =? 101)%N || (e =? 69)%N) &&
      match r with
      | c :: r' =>
          if (c =? 43)%N || (c =? 45)%N then nonempty_digits r'
          else nonempty_digits r
      | [] => false
      end
  end.

Definition strip_minus (tok : str) : bool * str :=
  match tok with
  | c :: t => if (c =? 45)%N then (true, t) else (false, tok)
  | [] => (false, [])
  end.

Definition number_kind (tok : str) : option bool :=
  let (ip, r1) := span is_digit (snd (strip_minus tok)) in
  if valid_int_part ip then
    match r1 with
    | [] => Some false
    | c :: r =>
        if (c =? 46)%N then
          let (fp, r2) := span is_digit r in
          if Nat.eqb (length fp) 0 then None
          else if valid_exponent r2 then Some true else None
        else if valid_exponent r1 then Some true else None
    end
  else None.

Definition digit_uint (c : N) (d : Decimal.uint) : Decimal.uint :=
  if (c =? 48)%N then Decimal.D0 d
  else if (c =? 49)%N then Decimal.D1 d
  else if (c =? 50)%N then Decimal.D2 d
  else if (c =? 51)%N then Decimal.D3 d
  else if (c =? 52)%N then Decimal.D4 d
  else if (c =? 53)%N then Decimal.D5 d
  else if (c =? 54)%N then Decimal.D6 d
  else if (c =? 55)%N then Decimal.D7 d
  else if (c =? 56)%N then Decimal.D8 d
  else Decimal.D9 d.

Definition chars_uint (s : str) : Decimal.uint :=
  foldr digit_uint Decimal.Nil s.

(** [int(literal)] *)
Definition int_of_literal (tok : str) : Z :=
  let (neg, ds) := strip_minus tok in
  Z.of_int (if neg then Decimal.Neg (chars_uint ds) else Decimal.Pos (chars_uint ds)).

Definition parse_number (fc : float_codec) (tok : str) : option value :=
  match number_kind tok with
  | Some true => Some (VFloat (float_of_literal fc tok))
  | Some false => Some (VInt (int_of_literal tok))
  | None => None
  end.

(** [d[k] = v]: a key the dict has keeps its place. *)
Fixpoint dict_set (k : str) (v : value) (d : dict) : dict :=
  match d with
  | [] => [(k, v)]
  | (k', v') :: d' =>
      if bool_decide (k' = k) then (k', v) :: d' else (k', v') :: dict_set k v d'
  end.

(** [dict(pairs)] *)
Definition dict_of_pairs (ps : list (str * value)) : dict :=
  fold_left (fun d kv => dict_set (fst kv) (snd kv) d) ps [].

(** [scan_once]: one JSON value at the head of [s], and what follows it.
    [fuel] bounds the nesting and the number of items; [json_loads] gives
    more than any text can use. *)
Fixpoint scan_once (fc : float_codec) (fuel : nat) (s : str)
  : option (value * str) :=
  match fuel with
  | O => None
  | S fuel' =>
      match s with
      | [] => None
      | c :: s' =>
          if (c =? 34)%N then
            match scan_string s' with
            | Some (t, r) => Some (VStr t, r)
            | None => None
            end
          else if (c =? 123)%N then
            match skip_ws s' with
            | [] => None
            | c' :: r =>
                if (c' =? 125)%N then Some (VDict [], r)
                else
                  match scan_pairs fc fuel' (c' :: r) with
                  | Some (ps, r') => Some (VDict (dict_of_pairs ps), r')
                  | None => None
                  end
            end
          else if (c =? 91)%N then
            match skip_ws s' with
            | [] => None
            | c' :: r =>
                if (c' =? 93)%N then Some (VList [], r)
                else
                  match scan_items fc fuel' (c' :: r) with
                  | Some (vs, r') => Some (VList vs, r')
                  | None => None
                  end
            end
          else
            match strip_prefix (str_of "null") s with
            | Some r => Some (VNone, r)
            | None =>
            match strip_prefix (str_of "true") s with
            | Some r => Some (VBool true, r)
            | None =>
            match strip_prefix (str_of "false") s with
            | Some r => Some (VBool false, r)
            | None =>
            match strip_prefix (str_of "NaN") s with
            | Some r => Some (VFloat nan, r)
            | None =>
            match strip_prefix (str_of "Infinity") s with
            | Some r => Some (VFloat infinity, r)
            | None =>
            match strip_prefix (str_of "-Infinity") s with
            | Some r => Some (VFloat neg_infinity, r)
            | None =>
                let (tok, r) := span is_number_char s in
                match parse_number fc tok with
                | Some v => Some (v, r)
                | None => None
                end
            end end end end end end
      end
  end
with scan_items (fc : float_codec) (fuel : nat) (s : str)
  : option (list value * str) :=
  match fuel with
  | O => None
  | S fuel' =>
      match scan_once fc fuel' s with
      | None => None
      | Some (v, r) =>
          match skip_ws r with
          | [] => None
          | c :: r' =>
              if (c =? 93)%N then Some ([v], r')
              else if (c =? 44)%N then
                match scan_items fc fuel' (skip_ws r') with
                | Some (vs, r'') => Some (v :: vs, r'')
                | None => None
                end
              else None
          end
      end
  end
with scan_pairs (fc : float_codec) (fuel : nat) (s : str)
  : option (list (str * value) * str) :=
  match fuel with
  | O => None
  | S fuel' =>
      match s with
      | [] => None
      | q :: s1 =>
          if (q =? 34)%N then
            match scan_string s1 with
            | None => None
            | Some (k, r) =>
                match skip_ws r with
                | [] => None
                | c :: r1 =>
                    if (c =? 58)%N then
                      match scan_once fc fuel' (skip_ws r1) with
                      | None => None
                      | Some (v, r2) =>
                          match skip_ws r2 with
                          | [] => None
                          | c' :: r3 =>
                              if (c' =? 125)%N then Some ([(k, v)], r3)
                              else if (c' =? 44)%N then
                                match scan_pairs fc fuel' (skip_ws r3) with
                                | Some (ps, r4) => Some ((k, v) :: ps, r4)
                                | None => None
                                end
                              else None
                          end
                      end
                    else None
                end
            end
          else None
      end
  end.

(** [json.loads]: one value between optional white space, nothing else. *)
Definition json_loads (fc : float_codec) (s : str) : result value :=
  match scan_once fc (S (length s)) (skip_ws s) with
  | Some (v, r) =>
      match skip_ws r with
      | [] => Ok v
      | _ :: _ => Raise JSONDecodeError
      end
  | None => Raise JSONDecodeError
  end.

(** A toy float codec, good on the floats it names: enough to run examples. *)
Definition demo_codec : float_codec :=
  {| float_repr := fun f =>
       if PrimFloat.eqb f 0.5 then str_of "0.5"
       else if PrimFloat.eqb f 12.5 then str_of "12.5"
       else str_of "0.0";
     float_of_literal := fun s =>
       if bool_decide (s = str_of "0.5") then 0.5%float
       else if bool_decide (s = str_of "12.5") then 12.5%float
       else 0%float |}.

(** A dict as Python builds it has no repeated key, at any depth. *)
Fixpoint wf_value (v : value) : Prop :=
  match v with
  | VList l =>
      (fix items (l : list value) : Prop :=
         match l with
         | [] => True
         | x :: l' => wf_value x /\ items l'
         end) l
  | VDict d =>
      NoDup (map fst d) /\
      (fix bindings (d : list (str * value)) : Prop :=
         match d with
         | [] => True
         | (_, x) :: d' => wf_value x /\ bindings d'
         end) d
  | _ => True
  end.

(** ** The world the program runs in *)

(** What [requests.get] hands back: the status line and the body, decoded. *)
Record response := {
  status_code : Z;
  text : str
}.

(** What the program cannot decide by itself: the answer of the network to
    a GET request, whether a path can be opened for writing, and the
    interpreter's float printing and reading. *)
Record platform := {
  requests_get : str -> result response;
  can_open_w : str -> bool;
  floats : float_codec
}.

(** The lines the program prints; the wording is the source's, kept in the
    comments. *)
Inductive line :=
| LoadedLine (n : nat)               (* Загружено {n} акций. *)
| PeLine (n : nat)                   (* По P/E фильтровано: {n} *)
| SectorLine (sector : value) (n : nat) (* Сектор: {sector}. Найдено: {n} *)
| DividendLine (n : nat)             (* Высокие дивиденды фильтр: {n} *)
| SavedLine (filename : str).        (* Результаты сохранены в {filename} *)

(** What the program does to the outside, in the order it does it. *)
Inductive event :=
| Request (url : str)
| Print (l : line)
| Open (filename : str).

(** What a file holds: a text, or, after a write that failed half way, some
    beginning of one. *)
Inductive file :=
| Text (t : str)
| Partial.

(** Objects live in a store and are reached through references, so that a
    list a method builds is told from the list the screener holds. *)
Definition ref := nat.

(** An instance of the class: its two attributes. *)
Record StockScreener := {
  stocks : ref;
  filters : ref
}.

(** [self] is the one [StockScreener] the program creates. *)
Record machine := {
  heap : list value;
  self : StockScreener;
  files : gmap str file;
  trace : list event
}.

Definition M (A : Type) : Type := machine -> result A * machine.

Definition ret {A} (a : A) : M A := fun m => (Ok a, m).

Definition bind {A B} (c : M A) (k : A -> M B) : M B :=
  fun m =>
    match c m with
    | (Ok a, m') => k a m'
    | (Raise e, m') => (Raise e, m')
    end.

Notation "'do' x <- c ; k" := (bind c (fun x => k))
  (at level 10, x name, c at level 100, k at level 200).

Definition lift {A} (r : result A) : M A := fun m => (r, m).

Definition emit (e : event) : M unit :=
  fun m => (Ok tt, {| heap := heap m; self := self m; files := files m;
                      trace := trace m ++ [e] |}).

(** The UTF-8 codec refuses surrogates (and what is no code point at all). *)
Definition utf8_encodable (c : N) : bool :=
  negb (is_surrogate c) && (c <=? 1114111)%N.

(** What an f-string puts for [{v}] is [str(v)].  For a str that is the
    str itself, with whatever it holds; for every other value it is the
    [repr], which writes a surrogate as an escape.  So the text can be
    refused by the UTF-8 codec only when [v] is a str holding a code point
    the codec refuses. *)
Definition text_encodable (v : value) : bool :=
  match v with
  | VStr s => forallb utf8_encodable s
  | _ => true
  end.

(** The lines standard output takes.  The fixed wording and the counts
    always encode; a line is refused when the text put in it is. *)
Definition printable (l : line) : bool :=
  match l with
  | LoadedLine _ | PeLine _ | DividendLine _ => true
  | SectorLine sector _ => text_encodable sector
  | SavedLine filename => forallb utf8_encodable filename
  end.

(** [print]: standard output is a UTF-8 text stream with strict error
    handling.  The line is encoded as a whole before any of it is written,
    so a line that is refused raises [UnicodeEncodeError] and nothing of it
    is printed. *)
Definition print (l : line) : M unit :=
  if printable l then emit (Print l) else lift (Raise UnicodeEncodeError).

(** A new object: its reference is the next free one. *)
Definition alloc (v : value) : M ref :=
  fun m => (Ok (length (heap m)),
            {| heap := heap m ++ [v]; self := self m; files := files m;
               trace := trace m |}).

(** Reading through a reference.  A reference the program holds always
    points into the store; [None] stands in for one that would not. *)
Definition deref (r : ref) : M value :=
  fun m => (Ok (match heap m !! r with
                | Some v => v
                | None => VNone
                end), m).

Definition set_self_stocks (r : ref) : M unit :=
  fun m => (Ok tt, {| heap := heap m;
                      self := {| stocks := r; filters := filters (self m) |};
                      files := files m;
                      trace := trace m |}).

Definition set_self_filters (r : ref) : M unit :=
  fun m => (Ok tt, {| heap := heap m;
                      self := {| stocks := stocks (self m); filters := r |};
                      files := files m;
                      trace := trace m |}).

Definition get_self_stocks : M ref := fun m => (Ok (stocks (self m)), m).

Definition write_file (filename : str) (f : file) : M unit :=
  fun m => (Ok tt, {| heap := heap m; self := self m;
                      files := <[filename := f]> (files m);
                      trace := trace m |}).

(** ** [class StockScreener] *)

(** [__init__] *)
Definition init : M unit :=
  do stocks <- alloc (VList []);
  do _ <- set_self_stocks stocks;
  do filters <- alloc (VDict []);
  set_self_filters filters.

Definition default_api_url : str :=
  str_of "https://mock-stock-api.com/api/stocks".

(** [load_stocks]: [requests.get] raises when no response arrives and
    returns the response otherwise, whatever its status; the source does
    not look at the status. *)
Definition load_stocks (pf : platform) (api_url : str) : M unit :=
  do _ <- emit (Request api_url);
  do response <- lift (requests_get pf api_url);
  do parsed <- lift (json_loads (floats pf) (text response));
  do stocks <- alloc parsed;
  do _ <- set_self_stocks stocks;
  do n <- lift (py_len parsed);
  print (LoadedLine n).

(** The [for] loop of [filter_by_pe]; [filtered] is the list built so far. *)
Fixpoint filter_by_pe_loop (min_pe max_pe : value)
    (filtered items : list value) {struct items} : result (list value) :=
  match items with
  | [] => Ok filtered
  | s :: rest =>
      let* pe := py_get s (str_of "pe") VNone in
      if is_None pe then filter_by_pe_loop min_pe max_pe filtered rest
      else
        let* below :=
          if py_truthy min_pe then py_richcmp OpLt pe min_pe else Ok false in
        if below then filter_by_pe_loop min_pe max_pe filtered rest
        else
          let* above :=
            if py_truthy max_pe then py_richcmp OpGt pe max_pe else Ok false in
          if above then filter_by_pe_loop min_pe max_pe filtered rest
          else filter_by_pe_loop min_pe max_pe (filtered ++ [s]) rest
  end.

(** [filter_by_pe(min_pe=None, max_pe=None)] *)
Definition filter_by_pe (min_pe max_pe : value) : M ref :=
  do stocks <- get_self_stocks;
  do stored <- deref stocks;
  do items <- lift (py_iter stored);
  do kept <- lift (filter_by_pe_loop min_pe max_pe [] items);
  do filtered <- alloc (VList kept);
  do _ <- print (PeLine (length kept));
  ret filtered.

(** [[s for s in items if cond(s)]] *)
Fixpoint comprehension (cond : value -> result bool) (items : list value)
  : result (list value) :=
  match items with
  | [] => Ok []
  | s :: rest =>
      let* keep := cond s in
      let* tail := comprehension cond rest in
      Ok (if keep then s :: tail else tail)
  end.

Definition sector_cond (sector s : value) : result bool :=
  let* found := py_get s (str_of "sector") VNone in
  Ok (py_eq found sector).

(** [filter_sector(sector)] *)
Definition filter_sector (sector : value) : M ref :=
  do stocks <- get_self_stocks;
  do stored <- deref stocks;
  do items <- lift (py_iter stored);
  do kept <- lift (comprehension (sector_cond sector) items);
  do filtered <- alloc (VList kept);
  do _ <- print (SectorLine sector (length kept));
  ret filtered.

Definition dividend_cond (min_yield s : value) : result bool :=
  let* found := py_get s (str_of "div_yield") (VInt 0) in
  py_richcmp OpGe found min_yield.

Definition default_min_yield : value := VFloat 0.05.

(** [top_dividend_stocks(min_yield=0.05)] *)
Definition top_dividend_stocks (min_yield : value) : M ref :=
  do stocks <- get_self_stocks;
  do stored <- deref stocks;
  do items <- lift (py_iter stored);
  do kept <- lift (comprehension (dividend_cond min_yield) items);
  do filtered <- alloc (VList kept);
  do _ <- print (DividendLine (length kept));
  ret filtered.

(** [export_filtered(stocks, filename)]: [open] creates or empties the
    file, [json.dump] writes the document through the UTF-8 codec, and
    leaving the [with] block closes the file on every path. *)
Definition export_filtered (pf : platform) (stocks : ref) (filename : str)
  : M unit :=
  do _ <- emit (Open filename);
  do _ <- (if can_open_w pf filename then ret tt else lift (Raise OSError));
  do _ <- write_file filename (Text []);
  do obj <- deref stocks;
  do _ <- (let document := json_dumps (floats pf) obj in
      if forallb utf8_encodable document
      then write_file filename (Text document)
      else (do _ <- write_file filename Partial;
            lift (Raise UnicodeEncodeError)));
  print (SavedLine filename).

(** The script: [if __name__ == "__main__":] *)
Definition main (pf : platform) : M unit :=
  do _ <- init;
  do _ <- load_stocks pf default_api_url;
  do pe_stocks <- filter_by_pe (VInt 5) (VInt 15);
  export_filtered pf pe_stocks (str_of "pe_stocks.json").

(** ** The vocabulary of the claims *)

(** A machine whose screener holds the object [v]. *)
Definition holding (v : value) : machine :=
  {| heap := [v]; self := {| stocks := 0%nat; filters := 0%nat |};
     files := ∅; trace := [] |}.

(** The object the screener's [stocks] attribute points to. *)
Definition stored (m : machine) : option value := heap m !! stocks (self m).

(** [m] after a method allocated the list [kept] and failed to print. *)
Definition after_alloc (m : machine) (kept : list value) : machine :=
  {| heap := heap m ++ [VList kept]; self := self m; files := files m;
     trace := trace m |}.

(** [m] after a method allocated the list [kept] and printed [l]. *)
Definition after_filter (m : machine) (kept : list value) (l : line) : machine :=
  {| heap := heap m ++ [VList kept]; self := self m; files := files m;
     trace := trace m ++ [Print l] |}.

Definition is_dict (s : value) : bool :=
  match s with
  | VDict _ => true
  | _ => false
  end.

(** The field [key] of a record, when the record has it. *)
Definition field (key : string) (s : value) : option value :=
  match s with
  | VDict d => dict_lookup (str_of key) d
  | _ => None
  end.

(** A number that takes part in the order: an [int], a [bool] or a float
    other than NaN. *)
Definition is_ordered_number (v : value) : bool :=
  match as_number v with
  | Some XNaN => false
  | Some _ => true
  | None => false
  end.

Definition is_number (v : value) : bool :=
  match as_number v with
  | Some _ => true
  | None => false
  end.

(** A comparison that holds: [false] also when Python would refuse it. *)
Definition holds (op : cmpop) (a b : value) : bool :=
  match py_richcmp op a b with
  | Ok b => b
  | Raise _ => false
  end.

(** A record as the data model has it for [filter_by_pe]: a dict whose
    [pe], when there is one, is [None] or an ordered number. *)
Definition pe_typed (s : value) : bool :=
  is_dict s &&
  match field "pe" s with
  | Some pe => is_None pe || is_ordered_number pe
  | None => true
  end.

(** A bound of [filter_by_pe]: [None] or an ordered number. *)
Definition bound_typed (b : value) : bool :=
  is_None b || is_ordered_number b.

(** The condition of the specification, word for word: the field is
    present, and each bound is absent or met. *)
Definition pe_stated (min_pe max_pe s : value) : bool :=
  match field "pe" s with
  | Some pe =>
      (is_None min_pe || holds OpGe pe min_pe) &&
      (is_None max_pe || holds OpLe pe max_pe)
  | None => false
  end.

(** The condition the code applies: the field is present and not [None],
    and each bound is absent, zero or met. *)
Definition pe_kept (min_pe max_pe s : value) : bool :=
  match field "pe" s with
  | Some pe =>
      negb (is_None pe) &&
      (negb (py_truthy min_pe) || holds OpGe pe min_pe) &&
      (negb (py_truthy max_pe) || holds OpLe pe max_pe)
  | None => false
  end.

(** A record for [top_dividend_stocks]: a dict whose [div_yield], when
    there is one, is a number. *)
Definition yield_typed (s : value) : bool :=
  is_dict s &&
  match field "div_yield" s with
  | Some y => is_number y
  | None => true
  end.

(** The yield of a record, [0] when the field is absent. *)
Definition yield_of (s : value) : value :=
  match field "div_yield" s with
  | Some y => y
  | None => VInt 0
  end.

Definition yield_at_least (min_yield s : value) : bool :=
  holds OpGe (yield_of s) min_yield.


(** The record has no sector, or an explicit [null]. *)
Definition lacks_sector (s : value) : bool :=
  match field "sector" s with
  | None | Some VNone => true
  | Some _ => false
  end.

(** The three filters have one shape: read the stored object, select from
    its items, allocate the selection, print its size, return it. *)
Definition scan_stored (select : list value -> result (list value))
    (report : nat -> line) : M ref :=
  do stocks <- get_self_stocks;
  do stored <- deref stocks;
  do items <- lift (py_iter stored);
  do kept <- lift (select items);
  do filtered <- alloc (VList kept);
  do _ <- print (report (length kept));
  ret filtered.

(** [m'] has everything [m] had: the screener's attributes, the files, and
    every object of the store, unchanged. *)
Definition preserves (m m' : machine) : Prop :=
  stocks (self m') = stocks (self m) /\
  filters (self m') = filters (self m) /\
  files m' = files m /\
  stored m' = stored m /\
  forall r v, heap m !! r = Some v -> heap m' !! r = Some v.

(** [r] is a list object of [m'] that [m] did not have. *)
Definition new_list (m m' : machine) (r : ref) : Prop :=
  heap m !! r = None /\ r <> stocks (self m) /\
  exists kept, heap m' !! r = Some (VList kept).

(** ** Records for the examples *)

Definition record (ticker : string) (key : string) (v : value) : value :=
  VDict [(str_of "ticker", VStr (str_of ticker)); (str_of key, v)].

Definition yields_example : list value :=
  [record "A" "div_yield" (VFloat 0.03);
   record "B" "div_yield" (VFloat 0.05);
   record "C" "div_yield" (VFloat 0.1);
   VDict [(str_of "ticker", VStr (str_of "D"))]].

Definition sectors_example : list value :=
  [record "A" "sector" (VStr (str_of "Tech"));
   record "B" "sector" (VStr (str_of "Finance"));
   record "C" "sector" (VStr (str_of "Tech"))].


Definition pe_example : list value :=
  [record "A" "pe" (VFloat 12.5);
   record "B" "pe" (VInt 30);
   VDict [(str_of "ticker", VStr (str_of "C"))];
   record "D" "pe" VNone;
   record "E" "pe" (VInt (-1));
   record "F" "pe" (VInt 5)].

Definition no_sector_example : list value :=
  [record "A" "sector" (VStr (str_of "Tech"));
   VDict [(str_of "ticker", VStr (str_of "B"))];
   record "C" "sector" VNone].

(** ** Machines and platforms for the claims about [load_stocks] and the
    script *)

(** [m] after a request for [url] went out. *)
Definition requested (m : machine) (url : str) : machine :=
  {| heap := heap m; self := self m; files := files m;
     trace := trace m ++ [Request url] |}.

(** [m] after [load_stocks] stored the parsed body [v], of length [n]. *)
Definition loaded (m : machine) (url : str) (v : value) (n : nat) : machine :=
  {| heap := heap m ++ [v];
     self := {| stocks := length (heap m); filters := filters (self m) |};
     files := files m;
     trace := trace m ++ [Request url; Print (LoadedLine n)] |}.

(** The machine the script starts on: no object yet, the files [fs]. *)
Definition start (fs : gmap str file) : machine :=
  {| heap := []; self := {| stocks := 0%nat; filters := 0%nat |};
     files := fs; trace := [] |}.

(** A platform whose network answers every request with the given status
    and body, and one whose network is down. *)
Definition serving (status : Z) (body : str) : platform :=
  {| requests_get := fun _ => Ok {| status_code := status; text := body |};
     can_open_w := fun _ => true;
     floats := demo_codec |}.


Definition pe_stocks_json : str := str_of "pe_stocks.json".

Definition served_example : list value :=
  [record "A" "pe" (VFloat 12.5); record "B" "pe" (VInt 30);
   record "C" "pe" (VInt 7)].

(** [m] after [export_filtered] wrote [document] to [filename]. *)
Definition exported (m : machine) (filename : str) (document : str) : machine :=
  {| heap := heap m; self := self m;
     files := <[filename := Text document]> (files m);
     trace := trace m ++ [Open filename; Print (SavedLine filename)] |}.

(** [m] after [export_filtered] wrote [document] to [filename] and failed
    to print the name. *)
Definition written (m : machine) (filename : str) (document : str) : machine :=
  {| heap := heap m; self := self m;
     files := <[filename := Text document]> (files m);
     trace := trace m ++ [Open filename] |}.

(** [m] after [export_filtered] failed half way through the document. *)
Definition export_broken (m : machine) (filename : str) : machine :=
  {| heap := heap m; self := self m;
     files := <[filename := Partial]> (files m);
     trace := trace m ++ [Open filename] |}.

(** ** The vocabulary of the round trip *)

(** The items of a list after the first, and the bindings of a dict after
    the first, as [encode] writes them. *)
Fixpoint encode_items (fc : float_codec) (level : nat) (l : list value) : str :=
  match l with
  | [] => []
  | y :: l' =>
      str_of "," ++ newline_indent (S level) ++ encode fc (S level) y ++
      encode_items fc level l'
  end.

Fixpoint encode_bindings (fc : float_codec) (level : nat)
    (d : list (str * value)) : str :=
  match d with
  | [] => []
  | (k, y) :: d' =>
      str_of "," ++ newline_indent (S level) ++
      encode_basestring k ++ str_of ": " ++ encode fc (S level) y ++
      encode_bindings fc level d'
  end.

(** What may follow a value in a text: nothing, or a character that cannot
    continue a number literal. *)
Definition delimited (rest : str) : bool :=
  match rest with
  | [] => true
  | c :: _ => negb (is_number_char c)
  end.

(** A finite float, zero included. *)
Definition float_is_finite (f : float) : bool :=
  match Prim2SF f with
  | S754_zero _ | S754_finite _ _ _ => true
  | _ => false
  end.

(** What the interpreter promises of a finite float [f]: its [repr] is a
    float literal of the JSON grammar, made of the characters of number
    literals, and reading it gives [f] back. *)
Definition float_round_trips (fc : float_codec) (f : float) : Prop :=
  forallb is_number_char (float_repr fc f) = true /\
  number_kind (float_repr fc f) = Some true /\
  float_of_literal fc (float_repr fc f) = f.

(** No float of the value is NaN, and every finite one goes through the
    codec. *)
Fixpoint floats_ok (fc : float_codec) (v : value) : Prop :=
  match v with
  | VFloat f =>
      match Prim2SF f with
      | S754_nan => False
      | S754_infinity _ => True
      | _ => float_round_trips fc f
      end
  | VList l =>
      (fix items (l : list value) : Prop :=
         match l with
         | [] => True
         | x :: l' => floats_ok fc x /\ items l'
         end) l
  | VDict d =>
      (fix bindings (d : list (str * value)) : Prop :=
         match d with
         | [] => True
         | (_, x) :: d' => floats_ok fc x /\ bindings d'
         end) d
  | _ => True
  end.

(** Every string of the value, keys included, can be written in UTF-8. *)
Fixpoint strings_encodable (v : value) : Prop :=
  match v with
  | VStr s => forallb utf8_encodable s = true
  | VList l =>
      (fix items (l : list value) : Prop :=
         match l with
         | [] => True
         | x :: l' => strings_encodable x /\ items l'
         end) l
  | VDict d =>
      (fix bindings (d : list (str * value)) : Prop :=
         match d with
         | [] => True
         | (k, x) :: d' =>
             forallb utf8_encodable k = true /\ strings_encodable x /\
             bindings d'
         end) d
  | _ => True
  end.

(** The values of the examples of [export_filtered]. *)
Definition a_one : value := VList [VDict [(str_of "a", VInt 1)]].

Definition a_one_text : str :=
  str_of "[" ++ [10%N] ++
  str_of "   {" ++ [10%N] ++
  str_of "      " ++ [34%N] ++ str_of "a" ++ [34%N] ++ str_of ": 1" ++ [10%N] ++
  str_of "   }" ++ [10%N] ++
  str_of "]".

Definition lone_surrogate : value := VList [VDict [(str_of "a", VStr [55296%N])]].

Definition lone_surrogate_body : str :=
  str_of "[{" ++ [34%N] ++ str_of "a" ++ [34%N] ++ str_of ": " ++
  [34%N] ++ str_of "\ud800" ++ [34%N] ++ str_of "}]".

(** The first character of an encoded value, NaN apart. *)
Definition starts_value (c : N) : bool :=
  ((c =? 34) || (c =? 91) || (c =? 123) || (c =? 110) || (c =? 116) ||
   (c =? 102) || (c =? 73) || is_number_char c)%N.

(** [v] is read back from its encoding, at any depth of indentation,
    before anything that cannot continue a number, with fuel past the
    length of the encoding. *)
Definition reads_back (fc : float_codec) (v : value) : Prop :=
  forall level rest fuel,
    delimited rest = true ->
    (length (encode fc level v) < fuel)%nat ->
    scan_once fc fuel (encode fc level v ++ rest) = Some (v, rest).

(** Every binding of [sub] is found in [d2], with an equal value. *)
Definition dict_included (sub d2 : dict) : bool :=
  forallb (fun kv => match dict_lookup (fst kv) d2 with
                     | Some w => py_eq (snd kv) w
                     | None => false
                     end) sub.

Definition out_json : str := str_of "out.json".

Definition half_record : value := VList [record "A" "pe" (VFloat 0.5)].

(** ** The vocabulary of further properties *)

(** The record has a [pe] that is not [None]. *)
Definition has_pe (s : value) : bool :=
  match field "pe" s with
  | Some pe => negb (is_None pe)
  | None => false
  end.

(** A record whose [pe], when present, is [None] or a number, NaN
    included; and a bound that is [None] or a number. *)
Definition pe_numeric (s : value) : bool :=
  is_dict s &&
  match field "pe" s with
  | Some pe => is_None pe || is_number pe
  | None => true
  end.

Definition bound_numeric (b : value) : bool := is_None b || is_number b.

(** The test of the loop of [filter_by_pe], as it is written: the record
    is dropped when [pe] is [None], when [min_pe and pe < min_pe], and
    when [max_pe and pe > max_pe]. *)
Definition pe_passes (min_pe max_pe s : value) : bool :=
  match field "pe" s with
  | Some pe =>
      negb (is_None pe) &&
      negb (py_truthy min_pe && holds OpLt pe min_pe) &&
      negb (py_truthy max_pe && holds OpGt pe max_pe)
  | None => false
  end.

Definition float_is_nan (f : float) : bool :=
  match Prim2SF f with
  | S754_nan => true
  | _ => false
  end.

(** The value holds no NaN, at any depth. *)
Fixpoint no_nan (v : value) : bool :=
  match v with
  | VFloat f => negb (float_is_nan f)
  | VList l =>
      (fix items (l : list value) : bool :=
         match l with
         | [] => true
         | x :: l' => no_nan x && items l'
         end) l
  | VDict d =>
      (fix bindings (d : list (str * value)) : bool :=
         match d with
         | [] => true
         | (_, x) :: d' => no_nan x && bindings d'
         end) d
  | _ => true
  end.

(** The field [key] of the record is the float NaN. *)
Definition field_is_nan (key : string) (s : value) : bool :=
  match field key s with
  | Some (VFloat f) => float_is_nan f
  | _ => false
  end.

(** The record's [pe] is equal to [b], in the sense of [==]. *)
Definition pe_equals (b s : value) : bool :=
  match field "pe" s with
  | Some pe => py_eq pe b
  | None => false
  end.

(** What [s.get("sector")] gives is equal to [sector], in the sense of
    [==]. *)
Definition sector_is (sector s : value) : bool :=
  py_eq (match field "sector" s with
         | Some v => v
         | None => VNone
         end) sector.

(** [g] selects from [m'] the items it selects from [m]. *)
Definition same_items (g : M ref) (m m' : machine) : Prop :=
  forall r k, g m = (Ok r, k) ->
    exists r' k' kept,
      g m' = (Ok r', k') /\
      heap k !! r = Some (VList kept) /\
      heap k' !! r' = Some (VList kept).

(** [m] after [load_stocks] stored the parsed body [v] and failed to
    print its length. *)
Definition loaded_unsized (m : machine) (url : str) (v : value) : machine :=
  {| heap := heap m ++ [v];
     self := {| stocks := length (heap m); filters := filters (self m) |};
     files := files m;
     trace := trace m ++ [Request url] |}.

(** The machine after [__init__], started with the files [fs]. *)
Definition fresh (fs : gmap str file) : machine :=
  {| heap := [VList []; VDict []];
     self := {| stocks := 0%nat; filters := 1%nat |};
     files := fs; trace := [] |}.

(** Records for the examples. *)
Definition untyped_example : list value :=
  [record "A" "pe" (VStr (str_of "n/a"));
   VDict [(str_of "ticker", VStr (str_of "B"))];
   record "C" "pe" VNone;
   record "D" "pe" (VInt (-3));
   record "E" "pe" (VList [])].

Definition nan_example : list value :=
  [record "A" "pe" (VFloat nan);
   record "B" "pe" (VInt 30);
   record "C" "pe" (VInt 7)].

Definition null_yield_example : list value :=
  [record "A" "div_yield" (VFloat 0.1);
   record "B" "div_yield" VNone;
   record "C" "div_yield" (VFloat 0.03)].


Definition wrapped_body : value :=
  VDict [(str_of "data", VList sectors_example)].

(** What a method leaves alone.  [c] only allocates: the store after it
    begins with the store before it, so no object that existed is changed
    or dropped. *)
Definition only_allocates {A} (c : M A) : Prop :=
  forall m, heap m `prefix_of` heap (snd (c m)).

(** [c] writes no file other than [filename]. *)
Definition writes_only {A} (filename : str) (c : M A) : Prop :=
  forall m f, f <> filename -> files (snd (c m)) !! f = files m !! f.

(** [c] writes no file at all. *)
Definition writes_nothing {A} (c : M A) : Prop :=
  forall m, files (snd (c m)) = files m.

(** A platform that serves [body] and on which no path can be opened for
    writing. *)
Definition read_only (body : str) : platform :=
  {| requests_get := fun _ => Ok {| status_code := 200; text := body |};
     can_open_w := fun _ => false;
     floats := demo_codec |}.

(** * Proofs *)

(** ** The monad *)

Lemma bind_ok {A B} (c : M A) (k : A -> M B) m a m' :
  c m = (Ok a, m') -> bind c k m = k a m'.
Proof. intros H. unfold bind. now rewrite H. Qed.

(** ** The order of numbers *)

Lemma xcompare_ordered x y :
  x <> XNaN -> y <> XNaN -> exists c, xcompare x y = Some c.
Proof.
  intros Hx Hy. destruct x as [p|a|], y as [q|b|]; try congruence;
    simpl; eauto.
Qed.

(** Between ordered numbers, [<] is the negation of [>=] and [>] that of
    [<=]. *)
Lemma xnum_lt_not_ge x y :
  x <> XNaN -> y <> XNaN -> xnum_cmp OpLt x y = negb (xnum_cmp OpGe x y).
Proof.
  intros Hx Hy. destruct (xcompare_ordered x y Hx Hy) as [c Hc].
  unfold xnum_cmp. rewrite Hc. now destruct c.
Qed.

Lemma xnum_gt_not_le x y :
  x <> XNaN -> y <> XNaN -> xnum_cmp OpGt x y = negb (xnum_cmp OpLe x y).
Proof.
  intros Hx Hy. destruct (xcompare_ordered x y Hx Hy) as [c Hc].
  unfold xnum_cmp. rewrite Hc. now destruct c.
Qed.

Lemma is_ordered_number_inv v :
  is_ordered_number v = true -> exists x, as_number v = Some x /\ x <> XNaN.
Proof.
  unfold is_ordered_number. destruct (as_number v) as [[q|a|]|]; try discriminate;
    intros _; eexists; split; eauto; discriminate.
Qed.

Lemma py_richcmp_numbers op a b x y :
  as_number a = Some x -> as_number b = Some y ->
  py_richcmp op a b = Ok (xnum_cmp op x y).
Proof.
  intros Ha Hb.
  destruct a; try discriminate; destruct b; try discriminate;
    simpl in *; congruence.
Qed.

Lemma lt_ordered pe b :
  is_ordered_number pe = true -> is_ordered_number b = true ->
  py_richcmp OpLt pe b = Ok (negb (holds OpGe pe b)).
Proof.
  intros Hp Hb.
  destruct (is_ordered_number_inv _ Hp) as (x & Hx & Nx).
  destruct (is_ordered_number_inv _ Hb) as (y & Hy & Ny).
  unfold holds. rewrite !(py_richcmp_numbers _ _ _ _ _ Hx Hy).
  now rewrite xnum_lt_not_ge.
Qed.

Lemma gt_ordered pe b :
  is_ordered_number pe = true -> is_ordered_number b = true ->
  py_richcmp OpGt pe b = Ok (negb (holds OpLe pe b)).
Proof.
  intros Hp Hb.
  destruct (is_ordered_number_inv _ Hp) as (x & Hx & Nx).
  destruct (is_ordered_number_inv _ Hb) as (y & Hy & Ny).
  unfold holds. rewrite !(py_richcmp_numbers _ _ _ _ _ Hx Hy).
  now rewrite xnum_gt_not_le.
Qed.

(** A bound that is [None] is not truthy; a typed bound that is truthy is
    an ordered number. *)
Lemma bound_typed_truthy b :
  bound_typed b = true -> py_truthy b = true -> is_ordered_number b = true.
Proof.
  unfold bound_typed. destruct b; simpl; try discriminate; auto.
Qed.

(** ** The loop of [filter_by_pe] *)

(** One turn of the loop on a typed record: the record joins the list
    exactly when [pe_kept] says so. *)
Lemma filter_by_pe_loop_step min_pe max_pe s rest filtered :
  bound_typed min_pe = true -> bound_typed max_pe = true ->
  pe_typed s = true ->
  filter_by_pe_loop min_pe max_pe filtered (s :: rest) =
  filter_by_pe_loop min_pe max_pe
    (if pe_kept min_pe max_pe s then filtered ++ [s] else filtered) rest.
Proof.
  intros Hmin Hmax Hs.
  unfold pe_typed in Hs. apply andb_true_iff in Hs as [Hd Hpe].
  destruct s as [| | | | | |d]; try discriminate.
  unfold pe_kept. cbn [filter_by_pe_loop py_get field rbind] in *.
  destruct (dict_lookup (str_of "pe") d) as [pe|]; cbn [is_None]; [|reflexivity].
  destruct (is_None pe) eqn:Hn; cbn [negb andb]; [reflexivity|].
  cbn [orb] in Hpe.
  destruct (py_truthy min_pe) eqn:Tmin; cbn [negb orb rbind].
  - rewrite (lt_ordered _ _ Hpe (bound_typed_truthy _ Hmin Tmin)). cbn [rbind].
    destruct (holds OpGe pe min_pe); cbn [negb andb]; [|reflexivity].
    destruct (py_truthy max_pe) eqn:Tmax; cbn [negb orb rbind]; [|reflexivity].
    rewrite (gt_ordered _ _ Hpe (bound_typed_truthy _ Hmax Tmax)). cbn [rbind].
    now destruct (holds OpLe pe max_pe).
  - destruct (py_truthy max_pe) eqn:Tmax; cbn [negb orb rbind]; [|reflexivity].
    rewrite (gt_ordered _ _ Hpe (bound_typed_truthy _ Hmax Tmax)). cbn [rbind].
    now destruct (holds OpLe pe max_pe).
Qed.

Lemma filter_by_pe_loop_typed min_pe max_pe items :
  bound_typed min_pe = true -> bound_typed max_pe = true ->
  Forall (fun s => pe_typed s = true) items ->
  forall filtered,
    filter_by_pe_loop min_pe max_pe filtered items =
    Ok (filtered ++ List.filter (pe_kept min_pe max_pe) items).
Proof.
  intros Hmin Hmax Hitems.
  induction Hitems as [|s rest Hs _ IH]; intros filtered.
  - simpl. now rewrite app_nil_r.
  - rewrite filter_by_pe_loop_step by assumption.
    rewrite IH. cbn [List.filter].
    destruct (pe_kept min_pe max_pe s); [now rewrite <- app_assoc|reflexivity].
Qed.

(** A bound that is not truthy is not looked at: the loop runs as it does
    without the bound. *)
Lemma filter_by_pe_loop_falsy_min b max_pe items :
  py_truthy b = false ->
  forall filtered,
    filter_by_pe_loop b max_pe filtered items =
    filter_by_pe_loop VNone max_pe filtered items.
Proof.
  intros Hb. induction items as [|s rest IH]; intros filtered; [reflexivity|].
  cbn [filter_by_pe_loop]. rewrite Hb. cbn [py_truthy].
  destruct (py_get s (str_of "pe") VNone) as [pe|e]; cbn [rbind]; [|reflexivity].
  destruct (is_None pe); [apply IH|].
  destruct (if py_truthy max_pe then py_richcmp OpGt pe max_pe else Ok false)
    as [[|]|e]; cbn [rbind]; auto.
Qed.

Lemma filter_by_pe_loop_falsy_max min_pe b items :
  py_truthy b = false ->
  forall filtered,
    filter_by_pe_loop min_pe b filtered items =
    filter_by_pe_loop min_pe VNone filtered items.
Proof.
  intros Hb. induction items as [|s rest IH]; intros filtered; [reflexivity|].
  cbn [filter_by_pe_loop]. rewrite Hb. cbn [py_truthy].
  destruct (py_get s (str_of "pe") VNone) as [pe|e]; cbn [rbind]; [|reflexivity].
  destruct (is_None pe); [apply IH|].
  destruct (if py_truthy min_pe then py_richcmp OpLt pe min_pe else Ok false)
    as [[|]|e]; cbn [rbind]; auto.
Qed.

Lemma filter_sublist {A} (f : A -> bool) (l : list A) :
  List.filter f l `sublist_of` l.
Proof.
  induction l as [|x l IH]; simpl; [constructor|].
  destruct (f x); now constructor.
Qed.

(** ** Running a filter method *)

(** What a filter method does once the loop over the stored items is
    known: allocate the list, print the count, return the reference. *)
Lemma filter_by_pe_run min_pe max_pe m items kept :
  stored m = Some (VList items) ->
  filter_by_pe_loop min_pe max_pe [] items = Ok kept ->
  filter_by_pe min_pe max_pe m =
  (Ok (length (heap m)), after_filter m kept (PeLine (length kept))).
Proof.
  intros Hst Hloop. unfold stored in Hst.
  unfold filter_by_pe, bind, get_self_stocks, deref, lift, alloc, print, emit, ret.
  cbn. rewrite Hst. cbn. rewrite Hloop. reflexivity.
Qed.

Lemma filter_by_pe_falsy_min b max_pe m :
  py_truthy b = false -> filter_by_pe b max_pe m = filter_by_pe VNone max_pe m.
Proof.
  intros Hb. unfold filter_by_pe, bind, get_self_stocks, deref, lift. cbn.
  destruct (py_iter _) as [items|e]; [|reflexivity].
  now rewrite (filter_by_pe_loop_falsy_min b max_pe items Hb).
Qed.

Lemma filter_by_pe_falsy_max min_pe b m :
  py_truthy b = false -> filter_by_pe min_pe b m = filter_by_pe min_pe VNone m.
Proof.
  intros Hb. unfold filter_by_pe, bind, get_self_stocks, deref, lift. cbn.
  destruct (py_iter _) as [items|e]; [|reflexivity].
  now rewrite (filter_by_pe_loop_falsy_max min_pe b items Hb).
Qed.

(** ** Comprehensions *)

Lemma comprehension_filter cond (f : value -> bool) items :
  Forall (fun s => cond s = Ok (f s)) items ->
  comprehension cond items = Ok (List.filter f items).
Proof.
  induction 1 as [|s rest Hs _ IH]; [reflexivity|].
  cbn [comprehension List.filter]. rewrite Hs, IH. reflexivity.
Qed.

Lemma filter_sector_run sector m items kept :
  stored m = Some (VList items) ->
  comprehension (sector_cond sector) items = Ok kept ->
  filter_sector sector m =
  if text_encodable sector
  then (Ok (length (heap m)),
        after_filter m kept (SectorLine sector (length kept)))
  else (Raise UnicodeEncodeError, after_alloc m kept).
Proof.
  intros Hst Hc. unfold stored in Hst.
  unfold filter_sector, bind, get_self_stocks, deref, lift, alloc, print, ret.
  cbn. rewrite Hst. cbn. rewrite Hc.
  destruct (text_encodable sector); reflexivity.
Qed.

Lemma top_dividend_stocks_run min_yield m items kept :
  stored m = Some (VList items) ->
  comprehension (dividend_cond min_yield) items = Ok kept ->
  top_dividend_stocks min_yield m =
  (Ok (length (heap m)), after_filter m kept (DividendLine (length kept))).
Proof.
  intros Hst Hc. unfold stored in Hst.
  unfold top_dividend_stocks, bind, get_self_stocks, deref, lift, alloc, print,
    emit, ret.
  cbn. rewrite Hst. cbn. rewrite Hc. reflexivity.
Qed.


Lemma py_eq_None v : py_eq v VNone = is_None v.
Proof. now destruct v. Qed.


Lemma sector_cond_None s :
  is_dict s = true -> sector_cond VNone s = Ok (lacks_sector s).
Proof.
  destruct s as [| | | | | |d]; try discriminate. intros _.
  unfold sector_cond, lacks_sector. cbn [py_get field rbind].
  rewrite py_eq_None. now destruct (dict_lookup _ d) as [[]|].
Qed.

Lemma is_number_inv v : is_number v = true -> exists x, as_number v = Some x.
Proof. unfold is_number. destruct (as_number v); [eauto|discriminate]. Qed.

Lemma dividend_cond_typed min_yield s :
  is_number min_yield = true -> yield_typed s = true ->
  dividend_cond min_yield s = Ok (yield_at_least min_yield s).
Proof.
  intros Hm Hs. unfold yield_typed in Hs. apply andb_true_iff in Hs as [Hd Hy].
  destruct s as [| | | | | |d]; try discriminate.
  unfold dividend_cond, yield_at_least, yield_of, holds.
  cbn [py_get field rbind] in *.
  destruct (is_number_inv _ Hm) as [y Ey].
  destruct (dict_lookup _ d) as [v|].
  - destruct (is_number_inv _ Hy) as [x Ex].
    now rewrite (py_richcmp_numbers _ _ _ _ _ Ex Ey).
  - now rewrite (py_richcmp_numbers OpGe (VInt 0) min_yield _ _ eq_refl Ey).
Qed.

Lemma Forall_cond {A B} (P : A -> bool) (c : A -> B) (g : A -> B) (l : list A) :
  (forall s, P s = true -> c s = g s) ->
  Forall (fun s => P s = true) l -> Forall (fun s => c s = g s) l.
Proof. intros H. induction 1; constructor; auto. Qed.

(** ** The shape of a filter *)

Lemma filter_by_pe_shape min_pe max_pe :
  filter_by_pe min_pe max_pe =
  scan_stored (filter_by_pe_loop min_pe max_pe []) PeLine.
Proof. reflexivity. Qed.

Lemma filter_sector_shape sector :
  filter_sector sector =
  scan_stored (comprehension (sector_cond sector)) (SectorLine sector).
Proof. reflexivity. Qed.

Lemma top_dividend_stocks_shape min_yield :
  top_dividend_stocks min_yield =
  scan_stored (comprehension (dividend_cond min_yield)) DividendLine.
Proof. reflexivity. Qed.

(** A scan raises before anything is allocated and leaves the machine as
    it was, or selects from the items of the stored object and allocates
    the selection; it then returns when the line can be printed, and raises
    when it cannot. *)
Lemma scan_stored_cases select report m :
  (exists e, scan_stored select report m = (Raise e, m)) \/
  (exists obj items kept,
      stored m = Some obj /\ py_iter obj = Ok items /\ select items = Ok kept /\
      scan_stored select report m =
      if printable (report (length kept))
      then (Ok (length (heap m)), after_filter m kept (report (length kept)))
      else (Raise UnicodeEncodeError, after_alloc m kept)).
Proof.
  unfold scan_stored, stored, bind, get_self_stocks, deref, lift, alloc, print,
    ret. cbn.
  destruct (heap m !! stocks (self m)) as [obj|] eqn:Hobj.
  - destruct (py_iter obj) as [items|e] eqn:Hit; [|left; eauto].
    destruct (select items) as [kept|e] eqn:Hsel; [|left; eauto].
    right. exists obj, items, kept. repeat split; auto.
    destruct (printable (report (length kept))); reflexivity.
  - left. cbn. eauto.
Qed.

Lemma after_filter_preserves m kept l :
  is_Some (stored m) -> preserves m (after_filter m kept l).
Proof.
  intros [obj Hobj]. unfold preserves, stored in *. cbn.
  repeat split; auto.
  - rewrite Hobj. now apply lookup_app_l_Some.
  - intros r v Hr. now apply lookup_app_l_Some.
Qed.

Lemma preserves_refl m : preserves m m.
Proof. unfold preserves. auto. Qed.

Lemma after_filter_new_list m kept l :
  is_Some (stored m) -> new_list m (after_filter m kept l) (length (heap m)).
Proof.
  intros [obj Hobj]. unfold new_list, stored in *. cbn. repeat split.
  - apply lookup_ge_None. lia.
  - apply lookup_lt_Some in Hobj. lia.
  - exists kept. apply list_lookup_middle. reflexivity.
Qed.

Lemma after_alloc_preserves m kept :
  is_Some (stored m) -> preserves m (after_alloc m kept).
Proof.
  intros [obj Hobj]. unfold preserves, stored in *. cbn.
  repeat split; auto.
  - rewrite Hobj. now apply lookup_app_l_Some.
  - intros r v Hr. now apply lookup_app_l_Some.
Qed.

Lemma scan_stored_frame select report m :
  preserves m (snd (scan_stored select report m)) /\
  forall r, fst (scan_stored select report m) = Ok r ->
            new_list m (snd (scan_stored select report m)) r.
Proof.
  destruct (scan_stored_cases select report m) as
    [[e ->]|(obj & items & kept & Hobj & _ & _ & ->)]; cbn.
  - split; [apply preserves_refl|discriminate].
  - destruct (printable (report (length kept))); cbn.
    + split; [apply after_filter_preserves; eauto|].
      intros r [= <-]. apply after_filter_new_list; eauto.
    + split; [apply after_alloc_preserves; eauto|discriminate].
Qed.

Lemma scan_stored_run select report m obj items kept :
  stored m = Some obj -> py_iter obj = Ok items -> select items = Ok kept ->
  scan_stored select report m =
  if printable (report (length kept))
  then (Ok (length (heap m)), after_filter m kept (report (length kept)))
  else (Raise UnicodeEncodeError, after_alloc m kept).
Proof.
  intros Hobj Hit Hsel. unfold stored in Hobj.
  unfold scan_stored, bind, get_self_stocks, deref, lift, alloc, print, ret.
  cbn. rewrite Hobj, Hit. cbn. rewrite Hsel.
  destruct (printable (report (length kept))); reflexivity.
Qed.

(** A scan that returned had selected a list whose line could be printed. *)
Lemma scan_stored_returned select report m r1 m1 :
  scan_stored select report m = (Ok r1, m1) ->
  exists obj items kept,
    stored m = Some obj /\ py_iter obj = Ok items /\ select items = Ok kept /\
    printable (report (length kept)) = true /\
    r1 = length (heap m) /\ m1 = after_filter m kept (report (length kept)).
Proof.
  intros Hrun.
  destruct (scan_stored_cases select report m) as
    [[e He]|(obj & items & kept & Hobj & Hit & Hsel & Hm)]; [congruence|].
  rewrite Hm in Hrun. exists obj, items, kept.
  destruct (printable (report (length kept))); [|discriminate].
  injection Hrun as <- <-. auto 10.
Qed.

(** A second run of the same scan reads the same stored object, so it
    selects the same items, into another new list. *)
Lemma scan_stored_again select report m r1 m1 :
  scan_stored select report m = (Ok r1, m1) ->
  exists r2 m2 kept,
    scan_stored select report m1 = (Ok r2, m2) /\
    r2 <> r1 /\
    heap m1 !! r1 = Some (VList kept) /\
    heap m2 !! r2 = Some (VList kept) /\
    heap m2 !! r1 = Some (VList kept).
Proof.
  intros Hrun.
  destruct (scan_stored_returned _ _ _ _ _ Hrun) as
    (obj & items & kept & Hobj & Hit & Hsel & Hp & -> & ->).
  set (m1 := after_filter m kept (report (length kept))).
  assert (Hobj1 : stored m1 = Some obj).
  { unfold stored, m1. cbn. now apply lookup_app_l_Some. }
  assert (E1 : heap m1 !! length (heap m) = Some (VList kept)).
  { unfold m1. cbn. apply list_lookup_middle. reflexivity. }
  exists (length (heap m1)), (after_filter m1 kept (report (length kept))), kept.
  split.
  { rewrite (scan_stored_run _ _ _ obj items kept) by assumption.
    now rewrite Hp. }
  repeat split.
  - unfold m1. cbn. rewrite length_app. cbn. lia.
  - exact E1.
  - cbn. apply list_lookup_middle. reflexivity.
  - cbn. now apply lookup_app_l_Some.
Qed.

(** Two runs of the same scan on machines that hold the same stored object
    select the same items. *)
Lemma scan_stored_determined select report m m' r1 m1 :
  stored m' = stored m ->
  scan_stored select report m = (Ok r1, m1) ->
  exists r2 m2 kept,
    scan_stored select report m' = (Ok r2, m2) /\
    heap m1 !! r1 = Some (VList kept) /\
    heap m2 !! r2 = Some (VList kept).
Proof.
  intros Hsame Hrun.
  destruct (scan_stored_returned _ _ _ _ _ Hrun) as
    (obj & items & kept & Hobj & Hit & Hsel & Hp & -> & ->).
  rewrite <- Hsame in Hobj.
  exists (length (heap m')), (after_filter m' kept (report (length kept))), kept.
  split.
  { rewrite (scan_stored_run _ _ _ obj items kept) by assumption.
    now rewrite Hp. }
  split; cbn; apply list_lookup_middle; reflexivity.
Qed.

(** ** The filters *)

Lemma pe_kept_has_pe min_pe max_pe s :
  pe_kept min_pe max_pe s = true ->
  exists pe, field "pe" s = Some pe /\ pe <> VNone.
Proof.
  unfold pe_kept. destruct (field "pe" s) as [pe|]; [|discriminate].
  intros H. exists pe. split; [reflexivity|].
  intros ->. discriminate.
Qed.

(** With bounds that are absent or not zero, on a record whose [pe] is not
    [None], the code's condition is the stated one. *)
Lemma pe_kept_stated min_pe max_pe s :
  is_None min_pe || py_truthy min_pe = true ->
  is_None max_pe || py_truthy max_pe = true ->
  field "pe" s <> Some VNone ->
  pe_kept min_pe max_pe s = pe_stated min_pe max_pe s.
Proof.
  intros Hmin Hmax Hpe. unfold pe_kept, pe_stated.
  destruct (field "pe" s) as [pe|]; [|reflexivity].
  assert (Hn : is_None pe = false) by (destruct pe; congruence || reflexivity).
  rewrite Hn. cbn [negb andb].
  destruct min_pe, max_pe; cbn in Hmin, Hmax |- *;
    try rewrite Hmin; try rewrite Hmax; reflexivity.
Qed.

(** C1, as the code has it: on a stored list of records whose [pe], when
    present, is [None] or an ordered number, and with bounds that are [None]
    or ordered numbers, [filter_by_pe] returns a new list holding exactly
    the records whose [pe] is present and not [None] and meets every bound
    that is neither absent nor zero ([pe >= min_pe], [pe <= max_pe]); the
    result is a subsequence of the stored list, so the order is kept, and
    every record without a [pe] is left out.  When no bound is zero and no
    [pe] is [None], these are the records of the condition as stated. *)
Theorem filter_by_pe_range (m : machine) (S : list value)
    (min_pe max_pe : value) :
  stored m = Some (VList S) ->
  Forall (fun s => pe_typed s = true) S ->
  bound_typed min_pe = true ->
  bound_typed max_pe = true ->
  filter_by_pe min_pe max_pe m =
    (Ok (length (heap m)),
     after_filter m (List.filter (pe_kept min_pe max_pe) S)
       (PeLine (length (List.filter (pe_kept min_pe max_pe) S)))) /\
  List.filter (pe_kept min_pe max_pe) S `sublist_of` S /\
  Forall (fun s => exists pe, field "pe" s = Some pe /\ pe <> VNone)
    (List.filter (pe_kept min_pe max_pe) S) /\
  (is_None min_pe || py_truthy min_pe = true ->
   is_None max_pe || py_truthy max_pe = true ->
   Forall (fun s => field "pe" s <> Some VNone) S ->
   List.filter (pe_kept min_pe max_pe) S =
   List.filter (pe_stated min_pe max_pe) S).
Proof.
  intros Hst HS Hmin Hmax. repeat split.
  - apply filter_by_pe_run with (items := S); [assumption|].
    now rewrite filter_by_pe_loop_typed.
  - apply filter_sublist.
  - apply List.Forall_forall. intros s Hs.
    apply List.filter_In in Hs as [_ Hs]. eapply pe_kept_has_pe, Hs.
  - intros Tmin Tmax Hnn. clear - Tmin Tmax Hnn.
    induction Hnn as [|s S Hs _ IH]; [reflexivity|].
    cbn [List.filter]. now rewrite IH, pe_kept_stated.
Qed.

Lemma filter_by_pe_range_witness :
  filter_by_pe (VInt 5) (VFloat 15) (holding (VList pe_example)) =
    (Ok 1%nat,
     after_filter (holding (VList pe_example))
       [record "A" "pe" (VFloat 12.5); record "F" "pe" (VInt 5)]
       (PeLine 2)) /\
  [record "A" "pe" (VFloat 12.5); record "F" "pe" (VInt 5)]
    `sublist_of` pe_example /\
  Forall (fun s => exists pe, field "pe" s = Some pe /\ pe <> VNone)
    [record "A" "pe" (VFloat 12.5); record "F" "pe" (VInt 5)].
Proof.
  refine (let H := filter_by_pe_range (holding (VList pe_example)) pe_example
                     (VInt 5) (VFloat 15) _ _ _ _ in
          conj (proj1 H) (conj (proj1 (proj2 H)) (proj1 (proj2 (proj2 H))))).
  - reflexivity.
  - repeat constructor.
  - reflexivity.
  - reflexivity.
Defined.

(** C1, as it is stated, fails on a bound of zero: with [min_pe = 0] the
    record whose [pe] is [-1] is returned, although [-1 >= 0] is false. *)
Lemma filter_by_pe_zero_bound_counterexample :
  pe_stated (VInt 0) VNone (record "E" "pe" (VInt (-1))) = false /\
  filter_by_pe (VInt 0) VNone (holding (VList [record "E" "pe" (VInt (-1))])) =
    (Ok 1%nat,
     after_filter (holding (VList [record "E" "pe" (VInt (-1))]))
       [record "E" "pe" (VInt (-1))] (PeLine 1)).
Proof. split; reflexivity. Qed.

(** C2: a bound of zero, the integer or the float, is no bound at all:
    [filter_by_pe] called with it does what it does with the bound left
    out, on every machine and with any other bound. *)
Theorem filter_by_pe_zero_bound_absent (m : machine) (other : value) :
  filter_by_pe (VInt 0) other m = filter_by_pe VNone other m /\
  filter_by_pe other (VInt 0) m = filter_by_pe other VNone m /\
  filter_by_pe (VFloat 0) other m = filter_by_pe VNone other m /\
  filter_by_pe other (VFloat 0) m = filter_by_pe other VNone m.
Proof.
  repeat split.
  - now apply filter_by_pe_falsy_min.
  - now apply filter_by_pe_falsy_max.
  - now apply filter_by_pe_falsy_min.
  - now apply filter_by_pe_falsy_max.
Qed.

(** C3: on a stored list of records whose [div_yield], when present, is a
    number, and with a number for [min_yield], [top_dividend_stocks]
    returns a new list holding exactly the records whose yield, [0] when
    the field is absent, is at least [min_yield], in the stored order.  On
    the yields [0.03, 0.05, 0.1, missing] and the default [0.05] these are
    the records with [0.05] and [0.1]. *)
Theorem top_dividend_stocks_threshold (m : machine) (S : list value)
    (min_yield : value) :
  stored m = Some (VList S) ->
  Forall (fun s => yield_typed s = true) S ->
  is_number min_yield = true ->
  (top_dividend_stocks min_yield m =
     (Ok (length (heap m)),
      after_filter m (List.filter (yield_at_least min_yield) S)
        (DividendLine (length (List.filter (yield_at_least min_yield) S)))) /\
   List.filter (yield_at_least min_yield) S `sublist_of` S) /\
  top_dividend_stocks default_min_yield (holding (VList yields_example)) =
    (Ok 1%nat,
     after_filter (holding (VList yields_example))
       [record "B" "div_yield" (VFloat 0.05); record "C" "div_yield" (VFloat 0.1)]
       (DividendLine 2)).
Proof.
  intros Hst HS Hmin. split; [split|reflexivity].
  - apply top_dividend_stocks_run with (items := S); [assumption|].
    apply comprehension_filter.
    eapply Forall_cond; [|exact HS].
    intros s Hs. now apply dividend_cond_typed.
  - apply filter_sublist.
Qed.

Lemma top_dividend_stocks_threshold_witness :
  top_dividend_stocks (VFloat 0.1) (holding (VList yields_example)) =
    (Ok 1%nat,
     after_filter (holding (VList yields_example))
       [record "C" "div_yield" (VFloat 0.1)] (DividendLine 1)).
Proof.
  apply (proj1 (proj1 (top_dividend_stocks_threshold
                         (holding (VList yields_example)) yields_example
                         (VFloat 0.1) eq_refl
                         ltac:(repeat constructor) eq_refl))).
Defined.




(** C10: [filter_sector] with [None] returns a new list holding exactly
    the records that have no [sector] or whose [sector] is [None], in the
    stored order. *)
Theorem filter_sector_none (m : machine) (S : list value) :
  stored m = Some (VList S) ->
  Forall (fun s => is_dict s = true) S ->
  filter_sector VNone m =
    (Ok (length (heap m)),
     after_filter m (List.filter lacks_sector S)
       (SectorLine VNone (length (List.filter lacks_sector S)))) /\
  List.filter lacks_sector S `sublist_of` S /\
  forall s, lacks_sector s = true <->
            field "sector" s = None \/ field "sector" s = Some VNone.
Proof.
  intros Hst HS. repeat split.
  - rewrite (filter_sector_run VNone m S (List.filter lacks_sector S));
      [reflexivity|assumption|].
    apply comprehension_filter.
    eapply Forall_cond; [|exact HS].
    intros s Hs. now apply sector_cond_None.
  - apply filter_sublist.
  - unfold lacks_sector. destruct (field "sector" s) as [[]|]; auto; discriminate.
  - unfold lacks_sector. intros [->| ->]; reflexivity.
Qed.

Lemma filter_sector_none_witness :
  filter_sector VNone (holding (VList no_sector_example)) =
    (Ok 1%nat,
     after_filter (holding (VList no_sector_example))
       [VDict [(str_of "ticker", VStr (str_of "B"))]; record "C" "sector" VNone]
       (SectorLine VNone 2)).
Proof.
  apply (proj1 (filter_sector_none
                  (holding (VList no_sector_example)) no_sector_example
                  eq_refl ltac:(repeat constructor))).
Defined.

(** C5: whatever its arguments and whatever the machine, a filter leaves
    the screener's attributes, the files and every object of the store as
    they were, the stored list among them; the reference it returns is to
    a list object that did not exist before the call, so it is not the
    stored one. *)
Theorem filters_leave_stored_unchanged (m : machine)
    (min_pe max_pe sector min_yield : value) :
  (preserves m (snd (filter_by_pe min_pe max_pe m)) /\
   forall r, fst (filter_by_pe min_pe max_pe m) = Ok r ->
             new_list m (snd (filter_by_pe min_pe max_pe m)) r) /\
  (preserves m (snd (filter_sector sector m)) /\
   forall r, fst (filter_sector sector m) = Ok r ->
             new_list m (snd (filter_sector sector m)) r) /\
  (preserves m (snd (top_dividend_stocks min_yield m)) /\
   forall r, fst (top_dividend_stocks min_yield m) = Ok r ->
             new_list m (snd (top_dividend_stocks min_yield m)) r).
Proof.
  rewrite filter_by_pe_shape, filter_sector_shape, top_dividend_stocks_shape.
  split; [|split]; apply scan_stored_frame.
Qed.

Lemma filters_leave_stored_unchanged_witness :
  new_list (holding (VList pe_example))
    (snd (filter_by_pe (VInt 5) (VInt 15) (holding (VList pe_example)))) 1%nat.
Proof.
  apply (proj2 (proj1 (filters_leave_stored_unchanged
                         (holding (VList pe_example))
                         (VInt 5) (VInt 15) VNone VNone)) 1%nat eq_refl).
Defined.

(** C6: a filter that returned a list returns a list with the same items
    in the same order whenever it is called with the same arguments on a
    machine that holds the same stored object; so it does when it is
    called again right away (the second result is another new object, and
    the first is still there, unchanged). *)
Theorem filters_repeatable (m m' : machine)
    (min_pe max_pe sector min_yield : value) :
  stored m' = stored m ->
  (forall r1 m1, filter_by_pe min_pe max_pe m = (Ok r1, m1) ->
     (exists r2 m2 kept,
        filter_by_pe min_pe max_pe m' = (Ok r2, m2) /\
        heap m1 !! r1 = Some (VList kept) /\
        heap m2 !! r2 = Some (VList kept)) /\
     (exists r2 m2 kept,
        filter_by_pe min_pe max_pe m1 = (Ok r2, m2) /\ r2 <> r1 /\
        heap m1 !! r1 = Some (VList kept) /\
        heap m2 !! r2 = Some (VList kept) /\
        heap m2 !! r1 = Some (VList kept))) /\
  (forall r1 m1, filter_sector sector m = (Ok r1, m1) ->
     (exists r2 m2 kept,
        filter_sector sector m' = (Ok r2, m2) /\
        heap m1 !! r1 = Some (VList kept) /\
        heap m2 !! r2 = Some (VList kept)) /\
     (exists r2 m2 kept,
        filter_sector sector m1 = (Ok r2, m2) /\ r2 <> r1 /\
        heap m1 !! r1 = Some (VList kept) /\
        heap m2 !! r2 = Some (VList kept) /\
        heap m2 !! r1 = Some (VList kept))) /\
  (forall r1 m1, top_dividend_stocks min_yield m = (Ok r1, m1) ->
     (exists r2 m2 kept,
        top_dividend_stocks min_yield m' = (Ok r2, m2) /\
        heap m1 !! r1 = Some (VList kept) /\
        heap m2 !! r2 = Some (VList kept)) /\
     (exists r2 m2 kept,
        top_dividend_stocks min_yield m1 = (Ok r2, m2) /\ r2 <> r1 /\
        heap m1 !! r1 = Some (VList kept) /\
        heap m2 !! r2 = Some (VList kept) /\
        heap m2 !! r1 = Some (VList kept))).
Proof.
  intros Hsame.
  rewrite filter_by_pe_shape, filter_sector_shape, top_dividend_stocks_shape.
  split; [|split]; intros r1 m1 Hrun;
    (split; [now apply (scan_stored_determined _ _ m)
            |now apply (scan_stored_again _ _ m)]).
Qed.

Lemma filters_repeatable_witness :
  exists r2 m2 kept,
    filter_sector (VStr (str_of "Tech"))
      (requested (holding (VList sectors_example)) default_api_url) =
      (Ok r2, m2) /\
    heap (after_filter (holding (VList sectors_example))
            [record "A" "sector" (VStr (str_of "Tech"));
             record "C" "sector" (VStr (str_of "Tech"))]
            (SectorLine (VStr (str_of "Tech")) 2)) !! 1%nat =
      Some (VList kept) /\
    heap m2 !! r2 = Some (VList kept).
Proof.
  apply (proj1 (proj1 (proj2 (filters_repeatable
                         (holding (VList sectors_example))
                         (requested (holding (VList sectors_example))
                            default_api_url)
                         VNone VNone (VStr (str_of "Tech")) VNone eq_refl))
                  1%nat _ eq_refl)).
Defined.

(** ** [load_stocks] *)



Lemma load_stocks_run pf url m resp v n :
  requests_get pf url = Ok resp ->
  json_loads (floats pf) (text resp) = Ok v ->
  py_len v = Ok n ->
  load_stocks pf url m = (Ok tt, loaded m url v n).
Proof.
  intros Hr Hv Hn.
  unfold load_stocks, bind, emit, lift, alloc, set_self_stocks, print.
  cbn. rewrite Hr. cbn. rewrite Hv. cbn.
  rewrite Hn. unfold loaded, emit. cbn. now rewrite <- app_assoc.
Qed.




(** ** [export_filtered] *)

Lemma export_filtered_run pf m r v filename :
  heap m !! r = Some v ->
  can_open_w pf filename = true ->
  forallb utf8_encodable (json_dumps (floats pf) v) = true ->
  forallb utf8_encodable filename = true ->
  export_filtered pf r filename m =
  (Ok tt, exported m filename (json_dumps (floats pf) v)).
Proof.
  intros Hr Hw Henc Hp.
  unfold export_filtered, bind, emit, lift, ret, write_file, deref, print, emit.
  cbn. rewrite Hw. cbn. rewrite Hr, Henc. cbn. rewrite Hp.
  unfold exported. cbn. now rewrite insert_insert_eq, <- app_assoc.
Qed.

(** The file is written and closed before its name is printed. *)
Lemma export_filtered_unprintable pf m r v filename :
  heap m !! r = Some v ->
  can_open_w pf filename = true ->
  forallb utf8_encodable (json_dumps (floats pf) v) = true ->
  forallb utf8_encodable filename = false ->
  export_filtered pf r filename m =
  (Raise UnicodeEncodeError, written m filename (json_dumps (floats pf) v)).
Proof.
  intros Hr Hw Henc Hp.
  unfold export_filtered, bind, emit, lift, ret, write_file, deref, print, emit.
  cbn. rewrite Hw. cbn. rewrite Hr, Henc. cbn. rewrite Hp.
  unfold written. cbn. now rewrite insert_insert_eq.
Qed.

Lemma export_filtered_unencodable pf m r v filename :
  heap m !! r = Some v ->
  can_open_w pf filename = true ->
  forallb utf8_encodable (json_dumps (floats pf) v) = false ->
  export_filtered pf r filename m =
  (Raise UnicodeEncodeError, export_broken m filename).
Proof.
  intros Hr Hw Henc.
  unfold export_filtered, bind, emit, lift, ret, write_file, deref, print, emit.
  cbn. rewrite Hw. cbn. rewrite Hr, Henc. cbn.
  unfold export_broken. now rewrite insert_insert_eq.
Qed.

Lemma export_filtered_unwritable pf m r filename :
  can_open_w pf filename = false ->
  export_filtered pf r filename m =
  (Raise OSError,
   {| heap := heap m; self := self m; files := files m;
      trace := trace m ++ [Open filename] |}).
Proof.
  intros Hw.
  unfold export_filtered, bind, emit, lift, ret, write_file, deref, print, emit.
  cbn. now rewrite Hw.
Qed.

(** ** The script *)

(** With the bounds [5] and [15] the code's condition is the stated one. *)
Lemma pe_kept_5_15 s :
  pe_kept (VInt 5) (VInt 15) s = pe_stated (VInt 5) (VInt 15) s.
Proof.
  unfold pe_kept, pe_stated. destruct (field "pe" s) as [pe|]; [|reflexivity].
  destruct pe; reflexivity.
Qed.

Lemma filter_ext_eq {A} (f g : A -> bool) l :
  (forall x, f x = g x) -> List.filter f l = List.filter g l.
Proof. intros H. induction l as [|x l IH]; simpl; [|rewrite H, IH]; reflexivity. Qed.

(** C9: started with no argument, on a network that answers the default
    URL with a JSON list of typed records and with [pe_stocks.json]
    writable, the script does this and nothing else: it requests the
    default URL, stores the list, selects the records with
    [5 <= pe <= 15], and writes them to [pe_stocks.json]; the trace is the
    request, the three printed lines and the opening of that one file, and
    no other file changes. *)
Theorem main_sequence (pf : platform) (fs : gmap str file) (resp : response)
    (S : list value) :
  requests_get pf default_api_url = Ok resp ->
  json_loads (floats pf) (text resp) = Ok (VList S) ->
  Forall (fun s => pe_typed s = true) S ->
  can_open_w pf pe_stocks_json = true ->
  forallb utf8_encodable
    (json_dumps (floats pf)
       (VList (List.filter (pe_stated (VInt 5) (VInt 15)) S))) = true ->
  main pf (start fs) =
  (Ok tt,
   {| heap := [VList []; VDict []; VList S;
               VList (List.filter (pe_stated (VInt 5) (VInt 15)) S)];
      self := {| stocks := 2%nat; filters := 1%nat |};
      files :=
        <[pe_stocks_json :=
            Text (json_dumps (floats pf)
                    (VList (List.filter (pe_stated (VInt 5) (VInt 15)) S)))]> fs;
      trace :=
        [Request default_api_url;
         Print (LoadedLine (length S));
         Print (PeLine (length (List.filter (pe_stated (VInt 5) (VInt 15)) S)));
         Open pe_stocks_json;
         Print (SavedLine pe_stocks_json)] |}).
Proof.
  intros Hget Hjson HS Hw Henc.
  set (kept := List.filter (pe_stated (VInt 5) (VInt 15)) S) in *.
  unfold main.
  set (m0 := {| heap := [VList []; VDict []];
                self := {| stocks := 0%nat; filters := 1%nat |};
                files := fs; trace := [] |}).
  rewrite (bind_ok init _ (start fs) tt m0) by reflexivity.
  rewrite (bind_ok _ _ m0 tt (loaded m0 default_api_url (VList S) (length S)))
    by (now apply (load_stocks_run pf default_api_url m0 resp)).
  assert (Hf : filter_by_pe (VInt 5) (VInt 15)
                 (loaded m0 default_api_url (VList S) (length S)) =
               (Ok 3%nat,
                after_filter (loaded m0 default_api_url (VList S) (length S))
                  kept (PeLine (length kept)))).
  { apply filter_by_pe_run with (items := S); [reflexivity|].
    rewrite filter_by_pe_loop_typed by (assumption || reflexivity).
    unfold kept. now rewrite (filter_ext_eq _ _ S pe_kept_5_15). }
  rewrite (bind_ok _ _ _ _ _ Hf).
  rewrite (export_filtered_run pf _ _ (VList kept)); try assumption; reflexivity.
Qed.

Lemma main_sequence_witness :
  main (serving 200 (json_dumps demo_codec (VList served_example))) (start ∅) =
  (Ok tt,
   {| heap := [VList []; VDict []; VList served_example;
               VList [record "A" "pe" (VFloat 12.5); record "C" "pe" (VInt 7)]];
      self := {| stocks := 2%nat; filters := 1%nat |};
      files :=
        <[pe_stocks_json :=
            Text (json_dumps demo_codec
                    (VList [record "A" "pe" (VFloat 12.5);
                            record "C" "pe" (VInt 7)]))]> ∅;
      trace :=
        [Request default_api_url;
         Print (LoadedLine 3);
         Print (PeLine 2);
         Open pe_stocks_json;
         Print (SavedLine pe_stocks_json)] |}).
Proof.
  apply (main_sequence
           (serving 200 (json_dumps demo_codec (VList served_example))) ∅
           {| status_code := 200;
              text := json_dumps demo_codec (VList served_example) |}
           served_example).
  - reflexivity.
  - vm_compute. reflexivity.
  - repeat constructor.
  - reflexivity.
  - vm_compute. reflexivity.
Defined.

(** ** Characters *)

Ltac char_cases c :=
  repeat match goal with
         | |- context [(c =? ?k)%N] => destruct (N.eqb_spec c k); [subst c|]
         | |- context [(c <? ?k)%N] => destruct (N.ltb_spec c k)
         | |- context [(?k <=? c)%N] => destruct (N.leb_spec k c)
         | |- context [(c <=? ?k)%N] => destruct (N.leb_spec c k)
         end.

Lemma is_number_char_cases c :
  is_number_char c = true ->
  In c [48; 49; 50; 51; 52; 53; 54; 55; 56; 57; 43; 45; 46; 69; 101]%N.
Proof.
  unfold is_number_char, is_digit. cbn [In].
  char_cases c; cbn; try discriminate; intros _; try lia; auto 20.
Qed.

Lemma is_digit_number_char c : is_digit c = true -> is_number_char c = true.
Proof. unfold is_number_char. now intros ->. Qed.

Lemma hex_value_digit n : (n < 16)%N -> hex_value (hex_digit n) = Some n.
Proof.
  intros Hn.
  assert (In n [0;1;2;3;4;5;6;7;8;9;10;11;12;13;14;15]%N) as H by (cbn; lia).
  cbn in H. intuition (subst; reflexivity).
Qed.

Lemma hex4_control c :
  (c < 32)%N -> hex4 48 48 (hex_digit (c / 16)) (hex_digit (c mod 16)) = Some c.
Proof.
  intros Hc. unfold hex4. cbn [hex_value is_digit N.leb N.compare andb].
  change (hex_value 48) with (Some 0%N).
  rewrite !hex_value_digit.
  - f_equal. pose proof (N.div_mod c 16). lia.
  - apply N.mod_lt. lia.
  - apply N.Div0.div_lt_upper_bound. lia.
Qed.

(** ** White space *)

Lemma skip_ws_newline_indent level s :
  skip_ws (newline_indent level ++ s) = skip_ws s.
Proof.
  unfold newline_indent. cbn [app skip_ws is_ws N.eqb orb Pos.eqb].
  induction (3 * level)%nat as [|n IH]; [reflexivity|exact IH].
Qed.

Lemma skip_ws_head c s : is_ws c = false -> skip_ws (c :: s) = c :: s.
Proof. intros H. cbn. now rewrite H. Qed.

(** ** Strings: [scanstring] undoes [encode_basestring] *)

Lemma scan_string_escape c tail :
  scan_string (escape_char c ++ tail) = prepend c (scan_string tail).
Proof.
  unfold escape_char.
  destruct (N.eqb_spec c 34); [subst; reflexivity|].
  destruct (N.eqb_spec c 92); [subst; reflexivity|].
  destruct (N.eqb_spec c 10); [subst; reflexivity|].
  destruct (N.eqb_spec c 13); [subst; reflexivity|].
  destruct (N.eqb_spec c 9); [subst; reflexivity|].
  destruct (N.eqb_spec c 8); [subst; reflexivity|].
  destruct (N.eqb_spec c 12); [subst; reflexivity|].
  destruct (N.ltb_spec c 32) as [Hc|Hc].
  - cbn [app scan_string N.eqb Pos.eqb].
    rewrite (hex4_control c Hc).
    assert (Hh : is_high_surrogate c = false).
    { unfold is_high_surrogate. apply andb_false_iff. left.
      apply N.leb_gt. lia. }
    rewrite Hh. cbn [andb].
    now destruct tail as [|? [|? [|? [|? [|? [|? ?]]]]]].
  - cbn [app scan_string].
    destruct (N.eqb_spec c 34); [contradiction|].
    destruct (N.eqb_spec c 92); [contradiction|].
    destruct (N.ltb_spec c 32); [lia|reflexivity].
Qed.

Lemma scan_string_escaped s rest :
  scan_string (flat_map escape_char s ++ 34%N :: rest) = Some (s, rest).
Proof.
  induction s as [|c s IH]; [reflexivity|].
  cbn [flat_map]. rewrite <- app_assoc, scan_string_escape, IH. reflexivity.
Qed.

Lemma encode_basestring_app s rest :
  encode_basestring s ++ rest = 34%N :: flat_map escape_char s ++ 34%N :: rest.
Proof. unfold encode_basestring. cbn. now rewrite <- app_assoc. Qed.

(** ** Number literals *)

Lemma span_all p a rest :
  forallb p a = true ->
  match rest with [] => True | c :: _ => p c = false end ->
  span p (a ++ rest) = (a, rest).
Proof.
  intros Ha Hrest. induction a as [|c a IH]; cbn [app span].
  - destruct rest as [|c rest]; [reflexivity|]. cbn. now rewrite Hrest.
  - cbn in Ha. apply andb_true_iff in Ha as [Hc Ha]. rewrite Hc, IH; auto.
Qed.

Lemma span_all_nil p a : forallb p a = true -> span p a = (a, []).
Proof.
  intros Ha. rewrite <- (app_nil_r a) at 1. now apply span_all.
Qed.

Lemma uint_chars_digits d : forallb is_digit (uint_chars d) = true.
Proof. induction d; cbn; auto. Qed.

Lemma chars_uint_chars d : chars_uint (uint_chars d) = d.
Proof. induction d; cbn; unfold chars_uint in *; cbn; congruence. Qed.

Lemma strip_minus_uint d : strip_minus (uint_chars d) = (false, uint_chars d).
Proof. destruct d; reflexivity. Qed.

Lemma nzhead_not_D0 d d' : Decimal.nzhead d <> Decimal.D0 d'.
Proof. induction d; cbn; auto; discriminate. Qed.

(** The digits of a positive number do not start with [0]. *)
Lemma to_uint_canonical p : Decimal.unorm (Pos.to_uint p) = Pos.to_uint p.
Proof.
  rewrite <- (DecimalPos.Unsigned.to_of (Pos.to_uint p)).
  now rewrite DecimalPos.Unsigned.of_to.
Qed.

Lemma valid_int_part_canonical d :
  d <> Decimal.Nil -> Decimal.unorm d = d -> valid_int_part (uint_chars d) = true.
Proof.
  intros Hnil Hd. destruct d; try reflexivity; [contradiction|].
  cbn. unfold Decimal.unorm in Hd. cbn [Decimal.nzhead] in Hd.
  destruct (Decimal.nzhead d) eqn:Hz; try discriminate.
  - injection Hd as <-. reflexivity.
  - exfalso. injection Hd as Hd. subst d. now apply nzhead_not_D0 in Hz.
Qed.

Lemma to_int_digits z :
  exists d, (Z.to_int z = Decimal.Pos d \/ Z.to_int z = Decimal.Neg d) /\
            valid_int_part (uint_chars d) = true.
Proof.
  destruct z as [|p|p]; cbn.
  - exists Decimal.zero. split; [now left|reflexivity].
  - exists (Pos.to_uint p). split; [now left|].
    apply valid_int_part_canonical;
      [apply DecimalPos.Unsigned.to_uint_nonnil|apply to_uint_canonical].
  - exists (Pos.to_uint p). split; [now right|].
    apply valid_int_part_canonical;
      [apply DecimalPos.Unsigned.to_uint_nonnil|apply to_uint_canonical].
Qed.

Lemma int_repr_number_chars z : forallb is_number_char (int_repr z) = true.
Proof.
  assert (H : forall d, forallb is_number_char (uint_chars d) = true).
  { intros d. apply forallb_forall. intros c Hc.
    apply is_digit_number_char.
    pose proof (uint_chars_digits d) as Hd.
    rewrite forallb_forall in Hd. now apply Hd. }
  unfold int_repr. destruct (Z.to_int z); cbn; auto.
Qed.

(** [int] undoes [int.__repr__]. *)
Lemma parse_number_int_repr fc z : parse_number fc (int_repr z) = Some (VInt z).
Proof.
  destruct (to_int_digits z) as (d & Hd & Hv).
  assert (Hk : number_kind (int_repr z) = Some false).
  { unfold number_kind, int_repr.
    assert (E : snd (strip_minus match Z.to_int z with
                                 | Decimal.Pos d => uint_chars d
                                 | Decimal.Neg d => 45%N :: uint_chars d
                                 end) = uint_chars d).
    { destruct Hd as [-> | ->]; [now rewrite strip_minus_uint|reflexivity]. }
    rewrite E, (span_all_nil _ _ (uint_chars_digits d)), Hv. reflexivity. }
  unfold parse_number. rewrite Hk. do 2 f_equal.
  rewrite <- (DecimalZ.of_to z) at 2.
  unfold int_of_literal, int_repr.
  destruct Hd as [-> | ->].
  - now rewrite strip_minus_uint, chars_uint_chars.
  - cbn. now rewrite chars_uint_chars.
Qed.

(** [float] undoes [float.__repr__] on a float that goes through the
    codec. *)
Lemma parse_number_floatstr fc f :
  float_is_finite f = true -> float_round_trips fc f ->
  parse_number fc (floatstr fc f) = Some (VFloat f) /\
  forallb is_number_char (floatstr fc f) = true.
Proof.
  intros Hfin (Hch & Hk & Hr).
  assert (E : floatstr fc f = float_repr fc f).
  { unfold floatstr. unfold float_is_finite in Hfin.
    destruct (Prim2SF f); try discriminate; reflexivity. }
  rewrite E. split; [|assumption].
  unfold parse_number. now rewrite Hk, Hr.
Qed.

(** What [scan_once] does with a text that starts neither a string, nor
    an object, nor an array, nor a literal name. *)
Lemma scan_once_number_token fc fuel c s :
  c <> 34%N -> c <> 123%N -> c <> 91%N ->
  strip_prefix (str_of "null") (c :: s) = None ->
  strip_prefix (str_of "true") (c :: s) = None ->
  strip_prefix (str_of "false") (c :: s) = None ->
  strip_prefix (str_of "NaN") (c :: s) = None ->
  strip_prefix (str_of "Infinity") (c :: s) = None ->
  strip_prefix (str_of "-Infinity") (c :: s) = None ->
  scan_once fc (S fuel) (c :: s) =
  match parse_number fc (fst (span is_number_char (c :: s))) with
  | Some v => Some (v, snd (span is_number_char (c :: s)))
  | None => None
  end.
Proof.
  intros H1 H2 H3 L1 L2 L3 L4 L5 L6.
  apply N.eqb_neq in H1, H2, H3.
  cbn [scan_once]. rewrite H1, H2, H3, L1, L2, L3, L4, L5, L6.
  now destruct (span is_number_char (c :: s)).
Qed.

(** A number literal at the head of the text is scanned as one token when
    what follows cannot continue it. *)
Lemma scan_once_number fc fuel t rest v :
  parse_number fc t = Some v ->
  forallb is_number_char t = true ->
  delimited rest = true ->
  scan_once fc (S fuel) (t ++ rest) = Some (v, rest).
Proof.
  intros Hp Ht Hrest.
  assert (Hspan : span is_number_char (t ++ rest) = (t, rest)).
  { apply span_all; [assumption|].
    destruct rest as [|c rest]; [exact I|].
    cbn in Hrest. now apply negb_true_iff in Hrest. }
  destruct t as [|c t]; [discriminate|].
  pose proof Ht as Ht'. cbn in Ht'. apply andb_true_iff in Ht' as [Hc Htl].
  apply is_number_char_cases in Hc. cbn [In] in Hc.
  assert (Hminus : c = 45%N ->
            strip_prefix (str_of "-Infinity") ((c :: t) ++ rest) = None).
  { intros ->. destruct t as [|c2 t]; [discriminate|].
    cbn in Htl. apply andb_true_iff in Htl as [Hc2 _].
    apply is_number_char_cases in Hc2. cbn [In] in Hc2.
    intuition (subst; reflexivity). }
  cbn [app] in *.
  rewrite scan_once_number_token.
  - rewrite Hspan. cbn [fst snd]. now rewrite Hp.
  - intuition (subst c; discriminate).
  - intuition (subst c; discriminate).
  - intuition (subst c; discriminate).
  - intuition (subst c; reflexivity).
  - intuition (subst c; reflexivity).
  - intuition (subst c; reflexivity).
  - intuition (subst c; reflexivity).
  - intuition (subst c; reflexivity).
  - destruct (N.eq_dec c 45%N) as [E|E]; [now apply Hminus|].
    intuition (subst c; try reflexivity; contradiction).
Qed.

(** ** Induction on values *)

Lemma value_ind_nested (P : value -> Prop) :
  P VNone ->
  (forall b, P (VBool b)) ->
  (forall z, P (VInt z)) ->
  (forall f, P (VFloat f)) ->
  (forall s, P (VStr s)) ->
  (forall l, Forall P l -> P (VList l)) ->
  (forall d, Forall (fun kv => P (snd kv)) d -> P (VDict d)) ->
  forall v, P v.
Proof.
  intros HN HB HI HF HS HL HD. fix IH 1. intros [| b | z | f | s | l | d].
  - exact HN.
  - apply HB.
  - apply HI.
  - apply HF.
  - apply HS.
  - apply HL. induction l as [|x l IHl]; constructor; [apply IH|exact IHl].
  - apply HD. induction d as [|[k x] d IHd]; constructor; [apply IH|exact IHd].
Qed.

Lemma floats_ok_list fc l : floats_ok fc (VList l) <-> Forall (floats_ok fc) l.
Proof.
  induction l as [|x l IH]; cbn; [split; auto|].
  rewrite Forall_cons. cbn in IH. now rewrite IH.
Qed.

Lemma floats_ok_dict fc d :
  floats_ok fc (VDict d) <-> Forall (fun kv => floats_ok fc (snd kv)) d.
Proof.
  induction d as [|[k x] d IH]; cbn; [split; auto|].
  rewrite Forall_cons. cbn in IH. now rewrite IH.
Qed.

Lemma wf_value_list l : wf_value (VList l) <-> Forall wf_value l.
Proof.
  induction l as [|x l IH]; cbn; [split; auto|].
  rewrite Forall_cons. cbn in IH. now rewrite IH.
Qed.

Lemma wf_value_dict d :
  wf_value (VDict d) <->
  NoDup (map fst d) /\ Forall (fun kv => wf_value (snd kv)) d.
Proof.
  cbn. apply and_iff_compat_l.
  induction d as [|[k x] d IH]; cbn; [split; auto|].
  rewrite Forall_cons. now rewrite IH.
Qed.

Lemma strings_encodable_list l :
  strings_encodable (VList l) <-> Forall strings_encodable l.
Proof.
  induction l as [|x l IH]; cbn; [split; auto|].
  rewrite Forall_cons. cbn in IH. now rewrite IH.
Qed.

Lemma strings_encodable_dict d :
  strings_encodable (VDict d) <->
  Forall (fun kv => forallb utf8_encodable (fst kv) = true /\
                    strings_encodable (snd kv)) d.
Proof.
  induction d as [|[k x] d IH]; cbn; [split; auto|].
  rewrite Forall_cons. cbn in IH. rewrite IH. cbn. tauto.
Qed.

(** ** The equations of [encode] *)

Lemma encode_list fc level x l :
  encode fc level (VList (x :: l)) =
  91%N :: newline_indent (S level) ++ encode fc (S level) x ++
  encode_items fc level l ++ newline_indent level ++ [93%N].
Proof.
  cbn [encode str_of map list_ascii_of_string app]. do 3 f_equal.
  f_equal. induction l as [|y l IH]; [reflexivity|].
  cbn [encode_items]. now rewrite IH.
Qed.

Lemma encode_dict fc level k x d :
  encode fc level (VDict ((k, x) :: d)) =
  123%N :: newline_indent (S level) ++
  encode_basestring k ++ 58%N :: 32%N :: encode fc (S level) x ++
  encode_bindings fc level d ++ newline_indent level ++ [125%N].
Proof.
  cbn [encode str_of map list_ascii_of_string app]. do 6 f_equal.
  f_equal. induction d as [|[k' y] d IH]; [reflexivity|].
  cbn [encode_bindings]. now rewrite IH.
Qed.

(** ** How an encoding starts *)

Lemma number_literal_head fc t v :
  parse_number fc t = Some v -> forallb is_number_char t = true ->
  exists c t', t = c :: t' /\ starts_value c = true.
Proof.
  intros Hp Ht. destruct t as [|c t']; [discriminate|].
  exists c, t'. split; [reflexivity|].
  cbn in Ht. apply andb_true_iff in Ht as [Hc _].
  unfold starts_value. rewrite Hc. now rewrite !orb_true_r.
Qed.

Lemma encode_head fc level v :
  floats_ok fc v ->
  exists c t, encode fc level v = c :: t /\ starts_value c = true.
Proof.
  intros Hf. destruct v as [| [|] | z | f | s | [|x l] | [|[k x] d]];
    try (eexists _, _; split; [reflexivity|reflexivity]).
  - apply (number_literal_head fc _ (VInt z));
      [apply parse_number_int_repr|apply int_repr_number_chars].
  - cbn [floats_ok] in Hf. cbn [encode]. unfold floatstr.
    destruct (Prim2SF f) as [sz|[|]| |sf mf ef] eqn:E; try contradiction;
      try (eexists _, _; split; reflexivity).
    + destruct (parse_number_floatstr fc f) as [Hp Hc];
        [unfold float_is_finite; now rewrite E|assumption|].
      unfold floatstr in Hp, Hc. rewrite E in Hp, Hc.
      now apply (number_literal_head fc _ (VFloat f)).
    + destruct (parse_number_floatstr fc f) as [Hp Hc];
        [unfold float_is_finite; now rewrite E|assumption|].
      unfold floatstr in Hp, Hc. rewrite E in Hp, Hc.
      now apply (number_literal_head fc _ (VFloat f)).
Qed.

Lemma starts_value_not_ws c : starts_value c = true -> is_ws c = false.
Proof.
  unfold starts_value, is_ws, is_number_char, is_digit.
  char_cases c; cbn; try discriminate; try reflexivity; lia.
Qed.

Lemma starts_value_not_close c :
  starts_value c = true -> (c =? 93)%N = false /\ (c =? 125)%N = false.
Proof.
  unfold starts_value, is_number_char, is_digit.
  char_cases c; cbn; try discriminate; auto; lia.
Qed.

Lemma skip_ws_encode fc level v rest :
  floats_ok fc v ->
  skip_ws (encode fc level v ++ rest) = encode fc level v ++ rest.
Proof.
  intros Hf. destruct (encode_head fc level v Hf) as (c & t & -> & Hc).
  cbn [app]. now apply skip_ws_head, starts_value_not_ws.
Qed.

(** ** The round trip *)

Lemma encode_items_cons fc level y l :
  encode_items fc level (y :: l) =
  44%N :: newline_indent (S level) ++ encode fc (S level) y ++
  encode_items fc level l.
Proof. reflexivity. Qed.

Lemma encode_bindings_cons fc level k y d :
  encode_bindings fc level ((k, y) :: d) =
  44%N :: newline_indent (S level) ++ encode_basestring k ++ 58%N :: 32%N ::
  encode fc (S level) y ++ encode_bindings fc level d.
Proof. reflexivity. Qed.

Lemma skip_ws_basestring k s :
  skip_ws (encode_basestring k ++ s) = encode_basestring k ++ s.
Proof. reflexivity. Qed.

Lemma delimited_items fc level l rest :
  delimited (encode_items fc level l ++ newline_indent level ++ 93%N :: rest) = true.
Proof. destruct l; reflexivity. Qed.

Lemma delimited_bindings fc level d rest :
  delimited (encode_bindings fc level d ++ newline_indent level ++ 125%N :: rest)
  = true.
Proof. destruct d as [|[k x] d]; reflexivity. Qed.

(** The items of a list, from the first on, up to the closing bracket. *)
Lemma scan_items_encode fc level rest l :
  Forall (reads_back fc) l -> Forall (floats_ok fc) l ->
  forall x fuel,
    reads_back fc x ->
    (length (encode fc (S level) x ++ encode_items fc level l) + 1 < fuel)%nat ->
    scan_items fc fuel
      (encode fc (S level) x ++ encode_items fc level l ++
       newline_indent level ++ 93%N :: rest) = Some (x :: l, rest).
Proof.
  intros Hl Hfl. induction Hl as [|y l Hy Hl IH]; intros x fuel Hx Hfuel.
  - destruct fuel as [|fuel]; [lia|].
    cbn [scan_items encode_items app] in *.
    rewrite app_nil_r in Hfuel.
    rewrite Hx by (reflexivity || lia).
    rewrite skip_ws_newline_indent. reflexivity.
  - destruct fuel as [|fuel]; [lia|].
    apply Forall_cons in Hfl as [Hfy Hfl].
    cbn [scan_items].
    rewrite Hx;
      [|apply delimited_items
       |rewrite encode_items_cons, length_app in Hfuel; cbn [length] in Hfuel; lia].
    rewrite encode_items_cons in *. cbn [app].
    rewrite (skip_ws_head 44) by reflexivity. cbn [N.eqb Pos.eqb].
    rewrite <- !app_assoc.
    rewrite skip_ws_newline_indent, skip_ws_encode by assumption.
    rewrite IH; [reflexivity|assumption|assumption|].
    rewrite length_app in Hfuel. cbn [length] in Hfuel.
    rewrite !length_app in *. lia.
Qed.

(** The bindings of a dict, from the first on, up to the closing brace. *)
Lemma scan_pairs_encode fc level rest d :
  Forall (fun kv => reads_back fc (snd kv)) d ->
  Forall (fun kv => floats_ok fc (snd kv)) d ->
  forall k x fuel,
    reads_back fc x -> floats_ok fc x ->
    (length (encode fc (S level) x ++ encode_bindings fc level d) + 1 < fuel)%nat ->
    scan_pairs fc fuel
      (encode_basestring k ++ 58%N :: 32%N :: encode fc (S level) x ++
       encode_bindings fc level d ++ newline_indent level ++ 125%N :: rest) =
    Some ((k, x) :: d, rest).
Proof.
  intros Hd Hfd.
  induction Hd as [|[k' y] d Hy Hd IH]; intros k x fuel Hx Hfx Hfuel.
  - destruct fuel as [|fuel]; [lia|].
    rewrite encode_basestring_app.
    cbn [scan_pairs encode_bindings app N.eqb Pos.eqb] in *.
    rewrite app_nil_r in Hfuel.
    rewrite scan_string_escaped.
    rewrite (skip_ws_head 58) by reflexivity. cbn [N.eqb Pos.eqb].
    change (skip_ws (32%N :: ?s)) with (skip_ws s).
    rewrite skip_ws_encode by assumption.
    rewrite Hx by (reflexivity || lia).
    rewrite skip_ws_newline_indent. reflexivity.
  - destruct fuel as [|fuel]; [lia|].
    apply Forall_cons in Hfd as [Hfy Hfd]. cbn [snd] in Hy, Hfy.
    rewrite encode_basestring_app.
    cbn [scan_pairs app N.eqb Pos.eqb].
    rewrite scan_string_escaped.
    rewrite (skip_ws_head 58) by reflexivity. cbn [N.eqb Pos.eqb].
    change (skip_ws (32%N :: ?s)) with (skip_ws s).
    rewrite skip_ws_encode by assumption.
    rewrite Hx;
      [|apply delimited_bindings
       |rewrite encode_bindings_cons, length_app in Hfuel;
        cbn [length] in Hfuel; lia].
    rewrite encode_bindings_cons in *. cbn [app].
    rewrite (skip_ws_head 44) by reflexivity. cbn [N.eqb Pos.eqb].
    rewrite <- !app_assoc.
    rewrite skip_ws_newline_indent, skip_ws_basestring.
    cbn [app]. rewrite <- !app_assoc.
    rewrite (IH Hfd k' y fuel); [reflexivity|assumption|assumption|].
    repeat first [rewrite length_app in Hfuel | progress (cbn [length] in Hfuel)].
    rewrite length_app. lia.
Qed.

(** ** [dict(pairs)] on pairs with distinct keys *)

Lemma dict_set_fresh k v d :
  k ∉ map fst d -> dict_set k v d = d ++ [(k, v)].
Proof.
  induction d as [|[k' v'] d IH]; intros Hk; [reflexivity|].
  cbn in *. apply not_elem_of_cons in Hk as [Hne Hk].
  rewrite bool_decide_eq_false_2 by congruence. now rewrite IH.
Qed.

Lemma dict_of_pairs_from ps : forall acc,
  NoDup (map fst (acc ++ ps)) ->
  fold_left (fun d kv => dict_set (fst kv) (snd kv) d) ps acc = acc ++ ps.
Proof.
  induction ps as [|[k v] ps IH]; intros acc Hnd; cbn [fold_left].
  - now rewrite app_nil_r.
  - cbn [fst snd]. rewrite dict_set_fresh.
    + rewrite IH; rewrite <- app_assoc; [reflexivity|exact Hnd].
    + rewrite map_app in Hnd. apply NoDup_app in Hnd as (_ & Hdis & _).
      intros Hin. apply (Hdis k Hin). cbn. left.
Qed.

Lemma dict_of_pairs_distinct ps :
  NoDup (map fst ps) -> dict_of_pairs ps = ps.
Proof. intros H. unfold dict_of_pairs. now rewrite dict_of_pairs_from. Qed.

(** ** Every well-formed value is read back from its encoding *)

Lemma reads_back_all fc v :
  wf_value v -> floats_ok fc v -> reads_back fc v.
Proof.
  induction v as [| b | z | f | s | l IH | d IH] using value_ind_nested;
    intros Hwf Hfl level rest fuel Hrest Hfuel;
    (destruct fuel as [|fuel]; [lia|]).
  - reflexivity.
  - destruct b; reflexivity.
  - apply scan_once_number;
      [apply parse_number_int_repr|apply int_repr_number_chars|assumption].
  - cbn [floats_ok] in Hfl. cbn [encode]. unfold floatstr.
    destruct (Prim2SF f) as [sz|[|]| |sf mf ef] eqn:E; try contradiction.
    + destruct (parse_number_floatstr fc f) as [Hp Hc];
        [unfold float_is_finite; now rewrite E|assumption|].
      unfold floatstr in Hp, Hc. rewrite E in Hp, Hc.
      now apply scan_once_number.
    + rewrite (Prim2SF_inj f neg_infinity E). reflexivity.
    + rewrite (Prim2SF_inj f infinity E). reflexivity.
    + destruct (parse_number_floatstr fc f) as [Hp Hc];
        [unfold float_is_finite; now rewrite E|assumption|].
      unfold floatstr in Hp, Hc. rewrite E in Hp, Hc.
      now apply scan_once_number.
  - cbn [encode]. rewrite encode_basestring_app.
    cbn [scan_once N.eqb Pos.eqb]. now rewrite scan_string_escaped.
  - apply wf_value_list in Hwf. apply floats_ok_list in Hfl.
    destruct l as [|x l]; [reflexivity|].
    apply Forall_cons in IH as [IHx IHl].
    apply Forall_cons in Hwf as [Hwx Hwl].
    apply Forall_cons in Hfl as [Hfx Hfl'].
    rewrite encode_list in *. cbn [app scan_once N.eqb Pos.eqb].
    rewrite <- !app_assoc.
    rewrite skip_ws_newline_indent, skip_ws_encode by assumption.
    destruct (encode_head fc (S level) x Hfx) as (c & t & Hc & Hs).
    destruct (starts_value_not_close c Hs) as [Hc1 _].
    rewrite Hc at 1. cbn [app]. rewrite Hc1.
    change (c :: t ++ ?r) with ((c :: t) ++ r). rewrite <- Hc.
    cbn [app].
    rewrite scan_items_encode; [reflexivity| | |auto|].
    + clear - IHl Hwl Hfl'. induction IHl as [|y l Hy _ IHl']; constructor.
      * apply Forall_cons in Hwl as [? ?]. apply Forall_cons in Hfl' as [? ?]. auto.
      * apply Forall_cons in Hwl as [? ?]. apply Forall_cons in Hfl' as [? ?]. auto.
    + assumption.
    + repeat first [rewrite length_app in Hfuel | progress (cbn [length] in Hfuel)].
      rewrite length_app. lia.
  - apply wf_value_dict in Hwf as [Hnd Hwf]. apply floats_ok_dict in Hfl.
    destruct d as [|[k x] d]; [reflexivity|].
    apply Forall_cons in IH as [IHx IHd].
    apply Forall_cons in Hwf as [Hwx Hwd].
    apply Forall_cons in Hfl as [Hfx Hfd]. cbn [snd] in *.
    rewrite encode_dict in *. cbn [app scan_once N.eqb Pos.eqb].
    rewrite <- !app_assoc.
    rewrite skip_ws_newline_indent, skip_ws_basestring.
    rewrite encode_basestring_app at 1. cbn [N.eqb Pos.eqb].
    rewrite <- encode_basestring_app.
    cbn [app]. rewrite <- !app_assoc. cbn [app].
    rewrite scan_pairs_encode; [|  | |auto|assumption|].
    + now rewrite dict_of_pairs_distinct.
    + clear - IHd Hwd Hfd. induction IHd as [|y l Hy _ IHl']; constructor.
      * apply Forall_cons in Hwd as [? ?]. apply Forall_cons in Hfd as [? ?]. auto.
      * apply Forall_cons in Hwd as [? ?]. apply Forall_cons in Hfd as [? ?]. auto.
    + assumption.
    + repeat first [rewrite length_app in Hfuel | progress (cbn [length] in Hfuel)].
      rewrite length_app. lia.
Qed.

(** [json.loads] undoes [json.dumps]. *)
Theorem json_loads_dumps fc v :
  wf_value v -> floats_ok fc v -> json_loads fc (json_dumps fc v) = Ok v.
Proof.
  intros Hwf Hfl. unfold json_loads, json_dumps.
  assert (E : skip_ws (encode fc 0 v) = encode fc 0 v ++ []).
  { rewrite <- (skip_ws_encode fc 0 v [] Hfl). now rewrite app_nil_r. }
  rewrite E, (reads_back_all fc v Hwf Hfl 0%nat []); [reflexivity|reflexivity|lia].
Qed.

(** ** The document can be written in UTF-8 *)

Lemma number_char_encodable c : is_number_char c = true -> utf8_encodable c = true.
Proof.
  intros H. apply is_number_char_cases in H. cbn [In] in H.
  intuition (subst; reflexivity).
Qed.

Lemma number_chars_encodable t :
  forallb is_number_char t = true -> forallb utf8_encodable t = true.
Proof.
  rewrite !forallb_forall. intros H c Hc. apply number_char_encodable, H, Hc.
Qed.

Lemma hex_digit_encodable n : (n < 16)%N -> utf8_encodable (hex_digit n) = true.
Proof.
  intros Hn.
  assert (In n [0;1;2;3;4;5;6;7;8;9;10;11;12;13;14;15]%N) as H by (cbn; lia).
  cbn in H. intuition (subst; reflexivity).
Qed.

Lemma escape_char_encodable c :
  utf8_encodable c = true -> forallb utf8_encodable (escape_char c) = true.
Proof.
  intros Hc. unfold escape_char.
  char_cases c; try reflexivity.
  - cbn [forallb]. rewrite !hex_digit_encodable; [reflexivity| |].
    + apply N.mod_lt. lia.
    + apply N.Div0.div_lt_upper_bound. lia.
  - cbn. now rewrite Hc.
Qed.

Lemma encode_basestring_encodable s :
  forallb utf8_encodable s = true ->
  forallb utf8_encodable (encode_basestring s) = true.
Proof.
  intros Hs. unfold encode_basestring. cbn [forallb].
  rewrite forallb_app. cbn. rewrite andb_true_r.
  induction s as [|c s IH]; [reflexivity|].
  cbn in Hs. apply andb_true_iff in Hs as [Hc Hs].
  cbn [flat_map]. rewrite forallb_app, escape_char_encodable, IH; auto.
Qed.

Lemma newline_indent_encodable level :
  forallb utf8_encodable (newline_indent level) = true.
Proof.
  unfold newline_indent. cbn [forallb]. cbn.
  induction (level + (level + (level + 0)))%nat; cbn; auto.
Qed.

Lemma encode_encodable fc v :
  strings_encodable v -> floats_ok fc v ->
  forall level, forallb utf8_encodable (encode fc level v) = true.
Proof.
  induction v as [| b | z | f | s | l IH | d IH] using value_ind_nested;
    intros Hs Hfl level.
  - reflexivity.
  - destruct b; reflexivity.
  - apply number_chars_encodable, int_repr_number_chars.
  - cbn [floats_ok] in Hfl. cbn [encode]. unfold floatstr.
    destruct (Prim2SF f) as [sz|[|]| |sf mf ef] eqn:E; try contradiction;
      try reflexivity.
    + destruct (parse_number_floatstr fc f) as [Hp Hc];
        [unfold float_is_finite; now rewrite E|assumption|].
      unfold floatstr in Hc. rewrite E in Hc.
      now apply number_chars_encodable.
    + destruct (parse_number_floatstr fc f) as [Hp Hc];
        [unfold float_is_finite; now rewrite E|assumption|].
      unfold floatstr in Hc. rewrite E in Hc.
      now apply number_chars_encodable.
  - now apply encode_basestring_encodable.
  - apply strings_encodable_list in Hs. apply floats_ok_list in Hfl.
    destruct l as [|x l]; [reflexivity|].
    apply Forall_cons in IH as [IHx IHl].
    apply Forall_cons in Hs as [Hsx Hsl].
    apply Forall_cons in Hfl as [Hfx Hfl'].
    rewrite encode_list. cbn [forallb].
    rewrite !forallb_app, !newline_indent_encodable, IHx by assumption.
    cbn. rewrite andb_true_r.
    clear - IHl Hsl Hfl'. induction IHl as [|y l Hy _ IHl']; [reflexivity|].
    apply Forall_cons in Hsl as [? ?]. apply Forall_cons in Hfl' as [? ?].
    rewrite encode_items_cons. cbn [forallb].
    rewrite !forallb_app, newline_indent_encodable, Hy, IHl' by assumption.
    reflexivity.
  - apply strings_encodable_dict in Hs. apply floats_ok_dict in Hfl.
    destruct d as [|[k x] d]; [reflexivity|].
    apply Forall_cons in IH as [IHx IHd].
    apply Forall_cons in Hs as [[Hk Hsx] Hsd].
    apply Forall_cons in Hfl as [Hfx Hfd]. cbn [fst snd] in *.
    rewrite encode_dict. cbn [forallb].
    rewrite !forallb_app. cbn [forallb].
    rewrite !forallb_app, !newline_indent_encodable,
      encode_basestring_encodable, IHx by assumption.
    cbn. rewrite andb_true_r.
    clear - IHd Hsd Hfd. induction IHd as [|[k' y] d Hy _ IHd']; [reflexivity|].
    apply Forall_cons in Hsd as [[? ?] ?]. apply Forall_cons in Hfd as [? ?].
    cbn [fst snd] in *.
    rewrite encode_bindings_cons. cbn [forallb].
    rewrite !forallb_app. cbn [forallb].
    rewrite !forallb_app, newline_indent_encodable,
      encode_basestring_encodable, Hy, IHd' by assumption.
    reflexivity.
Qed.

(** ** [==] on a value and itself *)

Lemma xnum_eqb_refl x : x <> XNaN -> xnum_eqb x x = true.
Proof.
  unfold xnum_eqb, xcompare. destruct x as [q|[|]|]; try reflexivity.
  - now rewrite (proj1 (Qeq_alt q q) (Qeq_refl q)).
  - congruence.
Qed.

Lemma dict_lookup_in d k v :
  NoDup (map fst d) -> (k, v) ∈ d -> dict_lookup k d = Some v.
Proof.
  induction d as [|[k' v'] d IH]; intros Hnd Hin.
  - now apply elem_of_nil in Hin.
  - cbn in *. apply NoDup_cons in Hnd as [Hk' Hnd].
    apply elem_of_cons in Hin as [[= -> ->]|Hin].
    + now rewrite bool_decide_eq_true_2.
    + rewrite bool_decide_eq_false_2; [now apply IH|].
      intros ->. apply Hk'. apply list_elem_of_In, in_map_iff.
      exists (k, v). split; [reflexivity|now apply list_elem_of_In].
Qed.

Lemma py_eq_dict d1 d2 :
  py_eq (VDict d1) (VDict d2) =
  Nat.eqb (length d1) (length d2) && dict_included d1 d2.
Proof.
  cbn [py_eq]. f_equal. unfold dict_included.
  induction d1 as [|[k v] d1 IH]; [reflexivity|].
  cbn [forallb fst snd]. now rewrite IH.
Qed.

Lemma py_eq_refl fc v :
  wf_value v -> floats_ok fc v -> py_eq v v = true.
Proof.
  induction v as [| b | z | f | s | l IH | d IH] using value_ind_nested;
    intros Hwf Hfl.
  - reflexivity.
  - cbn [py_eq as_number]. now apply xnum_eqb_refl.
  - cbn [py_eq as_number]. now apply xnum_eqb_refl.
  - cbn [floats_ok] in Hfl. cbn [py_eq as_number]. apply xnum_eqb_refl.
    unfold float_to_xnum. destruct (Prim2SF f); try discriminate. contradiction.
  - cbn. now apply bool_decide_eq_true.
  - apply wf_value_list in Hwf. apply floats_ok_list in Hfl.
    induction IH as [|x l Hx _ IHl]; [reflexivity|].
    apply Forall_cons in Hwf as [? ?]. apply Forall_cons in Hfl as [? ?].
    cbn [py_eq]. rewrite Hx by assumption. cbn [andb]. now apply IHl.
  - apply wf_value_dict in Hwf as [Hnd Hwf]. apply floats_ok_dict in Hfl.
    rewrite py_eq_dict, Nat.eqb_refl. cbn [andb].
    unfold dict_included. apply forallb_forall. intros [k x] Hin.
    apply list_elem_of_In in Hin. cbn [fst snd].
    rewrite (dict_lookup_in d k x Hnd Hin).
    rewrite Forall_forall in IH, Hwf, Hfl.
    apply (IH (k, x) Hin); [apply (Hwf (k, x) Hin)|apply (Hfl (k, x) Hin)].
Qed.

(** ** The export and back *)

Lemma escape_char_non_ascii c : (127 < c)%N -> escape_char c = [c].
Proof. intros Hc. unfold escape_char. char_cases c; try lia; reflexivity. Qed.

(** C7, as the code has it: for an object of the store that is a JSON
    value (no dict with a repeated key) whose strings hold no surrogate and
    whose floats are not NaN and, when finite, are written by [repr] as a
    literal that [float] reads back ([floats_ok]), and a path that can be
    opened for writing and whose name can be printed, [export_filtered]
    replaces what the file held by the document [json.dumps] builds,
    touches no other file, and the document read back by [json.loads] is
    the value, equal to it also in the sense of [==].  Characters outside
    ASCII are written as they are, and the levels of the document are
    indented by three spaces: [[{"a": 1}]] exported to [out.json] gives the
    five lines of [a_one_text], which parse to [[{"a": 1}]]. *)
Theorem export_filtered_round_trip (pf : platform) (m : machine) (r : ref)
    (v : value) (filename : str) :
  heap m !! r = Some v ->
  can_open_w pf filename = true ->
  forallb utf8_encodable filename = true ->
  wf_value v ->
  strings_encodable v ->
  floats_ok (floats pf) v ->
  (export_filtered pf r filename m =
     (Ok tt, exported m filename (json_dumps (floats pf) v)) /\
   files (exported m filename (json_dumps (floats pf) v)) !! filename =
     Some (Text (json_dumps (floats pf) v)) /\
   (forall p, p <> filename ->
      files (exported m filename (json_dumps (floats pf) v)) !! p =
      files m !! p) /\
   json_loads (floats pf) (json_dumps (floats pf) v) = Ok v /\
   py_eq v v = true) /\
  (forall c, (127 < c)%N -> escape_char c = [c]) /\
  json_dumps (floats pf) a_one = a_one_text /\
  export_filtered pf 0%nat out_json (holding a_one) =
    (if can_open_w pf out_json
     then (Ok tt, exported (holding a_one) out_json a_one_text)
     else (Raise OSError,
           {| heap := [a_one]; self := {| stocks := 0%nat; filters := 0%nat |};
              files := ∅; trace := [Open out_json] |})) /\
  json_loads (floats pf) a_one_text = Ok a_one.
Proof.
  intros Hr Hw Hp Hwf Hs Hfl. repeat split.
  - apply export_filtered_run; try assumption.
    now apply encode_encodable.
  - cbn. apply lookup_insert_eq.
  - intros p Hp'. cbn. now apply lookup_insert_ne.
  - now apply json_loads_dumps.
  - now apply (py_eq_refl (floats pf)).
  - apply escape_char_non_ascii.
  - destruct (can_open_w pf out_json) eqn:Hout.
    + now rewrite (export_filtered_run pf (holding a_one) 0%nat a_one out_json).
    + now rewrite export_filtered_unwritable.
Qed.

Lemma export_filtered_round_trip_witness :
  export_filtered (serving 200 []) 0%nat out_json (holding half_record) =
    (Ok tt,
     exported (holding half_record) out_json (json_dumps demo_codec half_record)) /\
  json_loads demo_codec (json_dumps demo_codec half_record) = Ok half_record.
Proof.
  destruct (export_filtered_round_trip (serving 200 []) (holding half_record)
              0%nat half_record out_json) as ((H1 & _ & _ & H2 & _) & _).
  - reflexivity.
  - reflexivity.
  - reflexivity.
  - cbn. repeat split; try exact I.
    apply (bool_decide_unpack _). vm_compute. exact I.
  - cbn. repeat split; reflexivity.
  - cbn. repeat split; reflexivity.
  - split; [exact H1|exact H2].
Defined.

(** C7, as it is stated, fails on a string with a lone surrogate, which
    [json.loads] accepts in a response ([\ud800]): the UTF-8 codec refuses
    it, [export_filtered] raises [UnicodeEncodeError] and leaves a part of
    the document in the file.  A lone surrogate in the name of the file
    fails the call as well, after the document is written: the line that
    reports the name is refused. *)
Lemma export_filtered_counterexample :
  json_loads demo_codec lone_surrogate_body = Ok lone_surrogate /\
  export_filtered (serving 200 lone_surrogate_body) 0%nat out_json
    (holding lone_surrogate) =
    (Raise UnicodeEncodeError, export_broken (holding lone_surrogate) out_json) /\
  export_filtered (serving 200 []) 0%nat [56448%N] (holding a_one) =
    (Raise UnicodeEncodeError, written (holding a_one) [56448%N] a_one_text).
Proof. repeat split; vm_compute; reflexivity. Qed.

(** ** The fuel of [json_loads] is enough

    Every step of the decoder that uses fuel also consumes a character, so
    a scan that succeeds with some fuel succeeds with any fuel past the
    number of characters it consumed: [json_loads] never fails for want of
    fuel. *)

Ltac break_match_in H :=
  match type of H with
  | context [match ?x with _ => _ end] => destruct x eqn:?
  | context [if ?x then _ else _] => destruct x eqn:?
  end.

Lemma skip_ws_length s : (length (skip_ws s) <= length s)%nat.
Proof.
  induction s as [|c s IH]; cbn; [lia|]. destruct (is_ws c); cbn; lia.
Qed.

Lemma prepend_Some c x t r :
  prepend c x = Some (t, r) -> exists t', x = Some (t', r).
Proof. destruct x as [[t' r']|]; cbn; [|discriminate]. intros [= _ <-]. eauto. Qed.

Lemma scan_string_length : forall n s t r,
  (length s < n)%nat -> scan_string s = Some (t, r) ->
  (length r < length s)%nat.
Proof.
  induction n as [|n IH]; intros s t r Hn H; [lia|].
  destruct s as [|c s']; [discriminate|].
  cbn [scan_string] in H.
  repeat break_match_in H; try discriminate;
    try (injection H as <- <-; cbn [length]; lia);
    apply prepend_Some in H as [t' H]; apply IH in H;
    subst; cbn [length] in *; lia.
Qed.

Lemma strip_prefix_length p : forall s r,
  strip_prefix p s = Some r -> length s = (length p + length r)%nat.
Proof.
  induction p as [|a p IH]; intros s r H; cbn in H.
  - now injection H as ->.
  - destruct s as [|b s]; [discriminate|].
    destruct (a =? b)%N; [|discriminate]. cbn. now rewrite (IH s r H).
Qed.

Lemma span_length p s a b :
  span p s = (a, b) -> length s = (length a + length b)%nat.
Proof.
  revert a b. induction s as [|c s IH]; intros a b H; cbn in H.
  - now injection H as <- <-.
  - destruct (p c).
    + destruct (span p s) as [a' b'] eqn:E. injection H as <- <-.
      cbn. now rewrite (IH a' b' eq_refl).
    + now injection H as <- <-.
Qed.

Lemma parse_number_nonempty fc tok v :
  parse_number fc tok = Some v -> (0 < length tok)%nat.
Proof. destruct tok; [discriminate|cbn; lia]. Qed.

Ltac length_facts :=
  repeat match goal with
    | H : scan_string ?s = Some (_, _) |- _ =>
        apply (scan_string_length (S (length s)) s) in H; [|lia]
    | H : strip_prefix _ _ = Some _ |- _ =>
        apply strip_prefix_length in H; cbn [length str_of map
          list_ascii_of_string] in H
    | H : span _ _ = (_, _) |- _ => apply span_length in H
    | H : parse_number _ _ = Some _ |- _ => apply parse_number_nonempty in H
    | H : skip_ws ?s = ?c :: ?t |- _ =>
        lazymatch goal with
        | _ : length (skip_ws s) = length (c :: t) |- _ => fail
        | _ => pose proof (f_equal (@length N) H);
               pose proof (skip_ws_length s)
        end
    end.

(** A successful scan consumes at least one character. *)
Lemma scan_progress fc n :
  (forall s v r, scan_once fc n s = Some (v, r) ->
                 (length r < length s)%nat) /\
  (forall s vs r, scan_items fc n s = Some (vs, r) ->
                  (length r < length s)%nat) /\
  (forall s ps r, scan_pairs fc n s = Some (ps, r) ->
                  (length r < length s)%nat).
Proof.
  induction n as [|n (IH1 & IH2 & IH3)]; [repeat split; discriminate|].
  repeat split.
  - intros s v r H. cbn [scan_once] in H.
    repeat break_match_in H; try discriminate; injection H as <- <-;
      repeat match goal with
        | E : scan_items _ _ _ = Some _ |- _ => apply IH2 in E
        | E : scan_pairs _ _ _ = Some _ |- _ => apply IH3 in E
        end;
      length_facts; cbn [length] in *; lia.
  - intros s vs r H. cbn [scan_items] in H.
    repeat break_match_in H; try discriminate; injection H as <- <-;
      repeat match goal with
        | E : scan_once _ _ _ = Some _ |- _ => apply IH1 in E
        | E : scan_items _ _ (skip_ws ?x) = Some _ |- _ =>
            apply IH2 in E; pose proof (skip_ws_length x)
        end;
      length_facts; cbn [length] in *; lia.
  - intros s ps r H. cbn [scan_pairs] in H.
    repeat break_match_in H; try discriminate; injection H as <- <-;
      repeat match goal with
        | E : scan_once _ _ (skip_ws ?x) = Some _ |- _ =>
            apply IH1 in E; pose proof (skip_ws_length x)
        | E : scan_pairs _ _ (skip_ws ?x) = Some _ |- _ =>
            apply IH3 in E; pose proof (skip_ws_length x)
        end;
      length_facts; cbn [length] in *; lia.
Qed.

Ltac recursive_calls fc n m IH1 IH2 IH3 :=
  repeat match goal with
    | E : scan_once fc n ?x = Some (?v, ?r) |- _ =>
        pose proof (proj1 (scan_progress fc n) _ _ _ E);
        pose proof (skip_ws_length r);
        pose proof (IH1 _ _ _ E m); clear E
    | E : scan_items fc n ?x = Some (?v, ?r) |- _ =>
        pose proof (proj1 (proj2 (scan_progress fc n)) _ _ _ E);
        pose proof (IH2 _ _ _ E m); clear E
    | E : scan_pairs fc n ?x = Some (?v, ?r) |- _ =>
        pose proof (proj2 (proj2 (scan_progress fc n)) _ _ _ E);
        pose proof (IH3 _ _ _ E m); clear E
    end;
  repeat match goal with
    | _ : context [skip_ws ?x] |- _ =>
        lazymatch goal with
        | _ : (length (skip_ws x) <= length x)%nat |- _ => fail
        | _ => pose proof (skip_ws_length x)
        end
    end.

Ltac replay_calls :=
  repeat first
    [ match goal with
      | F : _ -> _ = Some _ |- _ => rewrite F by lia; clear F
      end
    | match goal with
      | E : ?x = _ |- context [?x] => rewrite E
      end ].

(** More fuel than characters consumed gives the same result. *)
Lemma scan_fuel fc n :
  (forall s v r, scan_once fc n s = Some (v, r) ->
     forall m, (length s - length r < m)%nat ->
               scan_once fc m s = Some (v, r)) /\
  (forall s vs r, scan_items fc n s = Some (vs, r) ->
     forall m, (length s - length r < m)%nat ->
               scan_items fc m s = Some (vs, r)) /\
  (forall s ps r, scan_pairs fc n s = Some (ps, r) ->
     forall m, (length s - length r < m)%nat ->
               scan_pairs fc m s = Some (ps, r)).
Proof.
  induction n as [|n (IH1 & IH2 & IH3)]; [repeat split; discriminate|].
  repeat split.
  - intros s v r H m Hm. destruct m as [|m]; [lia|].
    cbn [scan_once] in H |- *.
    repeat break_match_in H; try discriminate; injection H as <- <-;
      recursive_calls fc n m IH1 IH2 IH3; length_facts; cbn [length] in *;
      replay_calls; reflexivity.
  - intros s vs r H m Hm. destruct m as [|m]; [lia|].
    cbn [scan_items] in H |- *.
    repeat break_match_in H; try discriminate; injection H as <- <-;
      recursive_calls fc n m IH1 IH2 IH3; length_facts; cbn [length] in *;
      replay_calls; reflexivity.
  - intros s ps r H m Hm. destruct m as [|m]; [lia|].
    cbn [scan_pairs] in H |- *.
    repeat break_match_in H; try discriminate; injection H as <- <-;
      recursive_calls fc n m IH1 IH2 IH3; length_facts; cbn [length] in *;
      replay_calls; reflexivity.
Qed.

(** What [json_loads] answers does not depend on its choice of fuel: a text
    that some amount of fuel decodes is decoded. *)
Theorem json_loads_complete fc n s v r :
  scan_once fc n (skip_ws s) = Some (v, r) -> skip_ws r = [] ->
  json_loads fc s = Ok v.
Proof.
  intros H Hr. unfold json_loads.
  rewrite (proj1 (scan_fuel fc n) _ _ _ H); [now rewrite Hr|].
  pose proof (skip_ws_length s). lia.
Qed.

(** ** What [json_loads] builds is well formed *)

Lemma dict_set_keys k v d :
  NoDup (map fst d) -> NoDup (map fst (dict_set k v d)).
Proof.
  induction d as [|[k' v'] d IH]; intros Hnd; cbn.
  - apply NoDup_cons. split; [apply not_elem_of_nil|constructor].
  - cbn in Hnd. apply NoDup_cons in Hnd as [Hk' Hnd].
    destruct (bool_decide (k' = k)) eqn:E; cbn.
    + apply NoDup_cons. auto.
    + apply NoDup_cons. split; [|auto].
      intros Hin. apply Hk'. clear - Hin E.
      apply bool_decide_eq_false in E.
      induction d as [|[k2 v2] d IH]; cbn in *.
      * apply elem_of_cons in Hin as [->|Hin]; [congruence|].
        now apply elem_of_nil in Hin.
      * destruct (bool_decide (k2 = k)); cbn in Hin.
        -- exact Hin.
        -- apply elem_of_cons in Hin as [->|Hin]; [left|right; auto].
Qed.

Lemma dict_set_values (P : value -> Prop) k v d :
  P v -> Forall (fun kv => P (snd kv)) d ->
  Forall (fun kv => P (snd kv)) (dict_set k v d).
Proof.
  intros Hv. induction 1 as [|[k' v'] d Hx Hd IH]; cbn.
  - repeat constructor. exact Hv.
  - destruct (bool_decide (k' = k)); constructor; auto.
Qed.

Lemma dict_of_pairs_wf ps :
  Forall (fun kv => wf_value (snd kv)) ps -> wf_value (VDict (dict_of_pairs ps)).
Proof.
  intros Hps. apply wf_value_dict. unfold dict_of_pairs.
  assert (G : forall acc,
             NoDup (map fst acc) /\ Forall (fun kv => wf_value (snd kv)) acc ->
             NoDup (map fst (fold_left
                       (fun d kv => dict_set (fst kv) (snd kv) d) ps acc)) /\
             Forall (fun kv => wf_value (snd kv))
               (fold_left (fun d kv => dict_set (fst kv) (snd kv) d) ps acc)).
  { induction Hps as [|[k v] ps Hv _ IH]; intros acc [Hn Hf]; [auto|].
    cbn [fold_left fst snd]. apply IH. split.
    - now apply dict_set_keys.
    - now apply dict_set_values. }
  apply G. split; constructor.
Qed.

Lemma parse_number_wf fc tok v : parse_number fc tok = Some v -> wf_value v.
Proof.
  unfold parse_number. destruct (number_kind tok) as [[|]|]; [| |discriminate];
    intros [= <-]; exact I.
Qed.

Lemma scan_wf fc n :
  (forall s v r, scan_once fc n s = Some (v, r) -> wf_value v) /\
  (forall s vs r, scan_items fc n s = Some (vs, r) -> Forall wf_value vs) /\
  (forall s ps r, scan_pairs fc n s = Some (ps, r) ->
                  Forall (fun kv => wf_value (snd kv)) ps).
Proof.
  induction n as [|n (IH1 & IH2 & IH3)]; [repeat split; discriminate|].
  repeat split.
  - intros s v r H. cbn [scan_once] in H.
    repeat break_match_in H; try discriminate; injection H as <- <-;
      first [ exact I
            | split; [constructor|exact I]
            | eapply dict_of_pairs_wf, IH3; eassumption
            | eapply wf_value_list, IH2; eassumption
            | eapply parse_number_wf; eassumption ].
  - intros s vs r H. cbn [scan_items] in H.
    repeat break_match_in H; try discriminate; injection H as <- <-;
      repeat constructor; eauto.
  - intros s ps r H. cbn [scan_pairs] in H.
    repeat break_match_in H; try discriminate; injection H as <- <-;
      repeat constructor; cbn [snd]; eauto.
Qed.

(** A value that comes from [json.loads] has no dict with a repeated key. *)
Theorem json_loads_wf fc s v : json_loads fc s = Ok v -> wf_value v.
Proof.
  unfold json_loads.
  destruct (scan_once fc _ _) as [[v' r]|] eqn:E; [|discriminate].
  destruct (skip_ws r); [|discriminate]. intros [= <-].
  eapply (proj1 (scan_wf fc _)), E.
Qed.

(** * Further properties of the filters *)

(** ** The order of numbers, continued *)

Lemma holds_numbers op a b x y :
  as_number a = Some x -> as_number b = Some y ->
  holds op a b = xnum_cmp op x y.
Proof.
  intros Ha Hb. unfold holds. now rewrite (py_richcmp_numbers _ _ _ _ _ Ha Hb).
Qed.

Lemma is_ordered_is_number v : is_ordered_number v = true -> is_number v = true.
Proof.
  unfold is_ordered_number, is_number. now destruct (as_number v) as [[]|].
Qed.

Lemma Qcompare_le_trans p q r c1 c2 :
  Qcompare p q = c1 -> Qcompare q r = c2 -> c1 <> Gt -> c2 <> Gt ->
  Qcompare p r <> Gt /\ (c1 = Lt \/ c2 = Lt -> Qcompare p r = Lt).
Proof.
  intros <- <- H1 H2. apply Qle_alt in H1, H2. split.
  - apply Qle_alt. eapply Qle_trans; eassumption.
  - intros [H|H]; apply Qlt_alt in H; apply Qlt_alt.
    + eapply Qlt_le_trans; eassumption.
    + eapply Qle_lt_trans; eassumption.
Qed.

(** [<=] on ordered numbers is transitive, strictly when one step is. *)
Lemma xcompare_le_trans x y z c1 c2 :
  xcompare x y = Some c1 -> xcompare y z = Some c2 -> c1 <> Gt -> c2 <> Gt ->
  exists c3, xcompare x z = Some c3 /\ c3 <> Gt /\
             (c1 = Lt \/ c2 = Lt -> c3 = Lt).
Proof.
  destruct x as [p|a|], y as [q|b|], z as [r|c|]; cbn; try discriminate.
  - intros [= H1] [= H2] N1 N2.
    destruct (Qcompare_le_trans p q r c1 c2 H1 H2 N1 N2) as [H3 H4]. eauto.
  - destruct c; intros [= <-] [= <-] N1 N2; try congruence.
    eexists; repeat split; auto; discriminate.
  - destruct b; intros [= <-] [= <-] N1 N2; congruence.
  - destruct b, c; intros [= <-] [= <-] N1 N2; try congruence;
      eexists; repeat split; auto; discriminate.
  - destruct a; intros [= <-] [= H2] N1 N2; try congruence.
    eexists; repeat split; auto; discriminate.
  - destruct a, c; intros [= <-] [= <-] N1 N2; try congruence;
      eexists; repeat split; auto; try discriminate; intros [|]; congruence.
  - destruct a, b; intros [= <-] [= <-] N1 N2; try congruence;
      eexists; repeat split; auto; discriminate.
  - destruct a, b, c; intros [= <-] [= <-] N1 N2; try congruence;
      eexists; repeat split; auto; try discriminate; intros [|]; congruence.
Qed.

Lemma xcompare_antisym x y c :
  xcompare x y = Some c -> xcompare y x = Some (CompOpp c).
Proof.
  destruct x as [p|a|], y as [q|b|]; cbn; try discriminate.
  - intros [= <-]. now rewrite <- Qcompare_antisym.
  - destruct b; now intros [= <-].
  - destruct a; now intros [= <-].
  - destruct a, b; now intros [= <-].
Qed.

(** [x >= a], [x <= b] and [b < a] cannot hold together. *)
Lemma xnum_no_room x a b :
  xnum_cmp OpGe x a = true -> xnum_cmp OpLe x b = true ->
  xnum_cmp OpLt b a = true -> False.
Proof.
  unfold xnum_cmp.
  destruct (xcompare x a) as [c1|] eqn:E1; [|discriminate].
  destruct (xcompare x b) as [c2|] eqn:E2; [|discriminate].
  destruct (xcompare b a) as [c3|] eqn:E3; [|discriminate].
  intros H1 H2 H3.
  destruct (xcompare_le_trans x b a c2 c3 E2 E3) as (c & Ec & Nc & Hc).
  - now destruct c2.
  - now destruct c3.
  - rewrite E1 in Ec. injection Ec as ->.
    assert (c = Lt) by (apply Hc; right; now destruct c3).
    subst. discriminate.
Qed.

(** From [a <= b] and [x >= b], [x >= a]; from [a <= b] and [x <= a],
    [x <= b]. *)
Lemma xnum_ge_weaken x a b :
  xnum_cmp OpLe a b = true -> xnum_cmp OpGe x b = true ->
  xnum_cmp OpGe x a = true.
Proof.
  unfold xnum_cmp.
  destruct (xcompare a b) as [c1|] eqn:E1; [|discriminate].
  destruct (xcompare x b) as [c2|] eqn:E2; [|discriminate].
  intros H1 H2. apply xcompare_antisym in E2.
  destruct (xcompare_le_trans a b x c1 (CompOpp c2) E1 E2) as (c & Ec & Nc & _).
  - now destruct c1.
  - now destruct c2.
  - apply xcompare_antisym in Ec. rewrite Ec. now destruct c.
Qed.

Lemma xnum_le_weaken x a b :
  xnum_cmp OpLe a b = true -> xnum_cmp OpLe x a = true ->
  xnum_cmp OpLe x b = true.
Proof.
  unfold xnum_cmp.
  destruct (xcompare a b) as [c1|] eqn:E1; [|discriminate].
  destruct (xcompare x a) as [c2|] eqn:E2; [|discriminate].
  intros H1 H2.
  destruct (xcompare_le_trans x a b c2 c1 E2 E1) as (c & Ec & Nc & _).
  - now destruct c2.
  - now destruct c1.
  - rewrite Ec. now destruct c.
Qed.

Lemma filter_sublist_imp {A} (f g : A -> bool) (l : list A) :
  (forall x, x ∈ l -> f x = true -> g x = true) ->
  List.filter f l `sublist_of` List.filter g l.
Proof.
  induction l as [|x l IH]; intros H; cbn; [constructor|].
  assert (IH' : List.filter f l `sublist_of` List.filter g l).
  { apply IH. intros y Hy. apply H. now right. }
  destruct (f x) eqn:Fx.
  - rewrite (H x (list_elem_of_here x l) Fx). now constructor.
  - destruct (g x); [now constructor|exact IH'].
Qed.

Lemma filter_nil_all {A} (f : A -> bool) (l : list A) :
  (forall x, x ∈ l -> f x = false) -> List.filter f l = [].
Proof.
  induction l as [|x l IH]; intros H; cbn; [reflexivity|].
  rewrite (H x (list_elem_of_here x l)). apply IH.
  intros y Hy. apply H. now right.
Qed.

Lemma filter_ext_in {A} (f g : A -> bool) (l : list A) :
  (forall x, x ∈ l -> f x = g x) -> List.filter f l = List.filter g l.
Proof.
  induction l as [|x l IH]; intros H; cbn; [reflexivity|].
  rewrite (H x (list_elem_of_here x l)), IH; [reflexivity|].
  intros y Hy. apply H. now right.
Qed.

(** ** [filter_by_pe] beyond typed records *)

Lemma filter_by_pe_loop_no_bounds min_pe max_pe items :
  py_truthy min_pe = false -> py_truthy max_pe = false ->
  Forall (fun s => is_dict s = true) items ->
  forall filtered,
    filter_by_pe_loop min_pe max_pe filtered items =
    Ok (filtered ++ List.filter has_pe items).
Proof.
  intros Hmin Hmax Hitems.
  induction Hitems as [|s rest Hs _ IH]; intros filtered.
  - cbn. now rewrite app_nil_r.
  - destruct s as [| | | | | |d]; try discriminate.
    cbn [filter_by_pe_loop List.filter py_get rbind]. unfold has_pe.
    cbn [field]. rewrite Hmin, Hmax.
    destruct (dict_lookup (str_of "pe") d) as [pe|]; [|apply IH].
    destruct (is_None pe); cbn [negb rbind]; [apply IH|].
    rewrite IH. now rewrite <- app_assoc.
Qed.

(** X1.  With no bound, or with bounds that are zero, [filter_by_pe] never
    compares anything: on any stored list of records it returns the
    records whose [pe] is present and not [None], whatever the [pe] is, a
    string or a list as well as a number, and raises nothing. *)
Theorem filter_by_pe_no_bounds (m : machine) (S : list value)
    (min_pe max_pe : value) :
  stored m = Some (VList S) ->
  Forall (fun s => is_dict s = true) S ->
  py_truthy min_pe = false ->
  py_truthy max_pe = false ->
  filter_by_pe min_pe max_pe m =
    (Ok (length (heap m)),
     after_filter m (List.filter has_pe S)
       (PeLine (length (List.filter has_pe S)))).
Proof.
  intros Hst HS Hmin Hmax.
  apply filter_by_pe_run with (items := S); [assumption|].
  now rewrite filter_by_pe_loop_no_bounds.
Qed.

Lemma filter_by_pe_no_bounds_witness :
  filter_by_pe VNone (VInt 0) (holding (VList untyped_example)) =
    (Ok 1%nat,
     after_filter (holding (VList untyped_example))
       [record "A" "pe" (VStr (str_of "n/a")); record "D" "pe" (VInt (-3));
        record "E" "pe" (VList [])]
       (PeLine 3)).
Proof.
  apply (filter_by_pe_no_bounds (holding (VList untyped_example))
           untyped_example VNone (VInt 0) eq_refl
           ltac:(repeat constructor) eq_refl eq_refl).
Defined.

(** ** Numbers that are not ordered *)

Lemma richcmp_numbers_holds op a b :
  is_number a = true -> is_number b = true ->
  py_richcmp op a b = Ok (holds op a b).
Proof.
  intros Ha Hb.
  destruct (is_number_inv _ Ha) as [x Ex], (is_number_inv _ Hb) as [y Ey].
  unfold holds. now rewrite (py_richcmp_numbers _ _ _ _ _ Ex Ey).
Qed.

Lemma bound_numeric_truthy b :
  bound_numeric b = true -> py_truthy b = true -> is_number b = true.
Proof. unfold bound_numeric. destruct b; cbn; try discriminate; auto. Qed.

Lemma filter_by_pe_loop_numeric_step min_pe max_pe s rest filtered :
  bound_numeric min_pe = true -> bound_numeric max_pe = true ->
  pe_numeric s = true ->
  filter_by_pe_loop min_pe max_pe filtered (s :: rest) =
  filter_by_pe_loop min_pe max_pe
    (if pe_passes min_pe max_pe s then filtered ++ [s] else filtered) rest.
Proof.
  intros Hmin Hmax Hs.
  unfold pe_numeric in Hs. apply andb_true_iff in Hs as [Hd Hpe].
  destruct s as [| | | | | |d]; try discriminate.
  unfold pe_passes. cbn [filter_by_pe_loop py_get field rbind] in *.
  destruct (dict_lookup (str_of "pe") d) as [pe|]; [|reflexivity].
  destruct (is_None pe) eqn:Hn; cbn [negb andb]; [reflexivity|].
  cbn [orb] in Hpe.
  destruct (py_truthy min_pe) eqn:Tmin; cbn [negb andb rbind].
  - rewrite (richcmp_numbers_holds _ _ _ Hpe (bound_numeric_truthy _ Hmin Tmin)).
    cbn [rbind].
    destruct (holds OpLt pe min_pe); cbn [negb andb]; [reflexivity|].
    destruct (py_truthy max_pe) eqn:Tmax; cbn [negb andb rbind]; [|reflexivity].
    rewrite (richcmp_numbers_holds _ _ _ Hpe (bound_numeric_truthy _ Hmax Tmax)).
    cbn [rbind]. now destruct (holds OpGt pe max_pe).
  - destruct (py_truthy max_pe) eqn:Tmax; cbn [negb andb rbind]; [|reflexivity].
    rewrite (richcmp_numbers_holds _ _ _ Hpe (bound_numeric_truthy _ Hmax Tmax)).
    cbn [rbind]. now destruct (holds OpGt pe max_pe).
Qed.

Lemma filter_by_pe_loop_numeric min_pe max_pe items :
  bound_numeric min_pe = true -> bound_numeric max_pe = true ->
  Forall (fun s => pe_numeric s = true) items ->
  forall filtered,
    filter_by_pe_loop min_pe max_pe filtered items =
    Ok (filtered ++ List.filter (pe_passes min_pe max_pe) items).
Proof.
  intros Hmin Hmax Hitems.
  induction Hitems as [|s rest Hs _ IH]; intros filtered.
  - cbn. now rewrite app_nil_r.
  - rewrite filter_by_pe_loop_numeric_step by assumption.
    rewrite IH. cbn [List.filter].
    destruct (pe_passes min_pe max_pe s); [now rewrite <- app_assoc|reflexivity].
Qed.

Lemma holds_nan_left op f b :
  float_is_nan f = true -> holds op (VFloat f) b = false.
Proof.
  intros Hf. unfold holds.
  destruct b; cbn; try reflexivity; unfold float_to_xnum;
    unfold float_is_nan in Hf; destruct (Prim2SF f); try discriminate;
    reflexivity.
Qed.

Lemma pe_passes_nan min_pe max_pe s :
  field_is_nan "pe" s = true -> pe_passes min_pe max_pe s = true.
Proof.
  unfold field_is_nan, pe_passes.
  destruct (field "pe" s) as [[| | |f| | |]|]; try discriminate.
  intros Hf. rewrite !(holds_nan_left _ f _ Hf).
  now rewrite !andb_false_r.
Qed.

(** X3.  NaN passes every bound: on a stored list of records whose [pe],
    when present, is [None] or a number, and with bounds that are [None] or
    numbers, [filter_by_pe] raises nothing, returns a subsequence of the
    stored list, and every record whose [pe] is NaN is in it, whatever the
    bounds ([NaN < min_pe] and [NaN > max_pe] are both false). *)
Theorem filter_by_pe_keeps_nan (m : machine) (S : list value)
    (min_pe max_pe : value) :
  stored m = Some (VList S) ->
  Forall (fun s => pe_numeric s = true) S ->
  bound_numeric min_pe = true ->
  bound_numeric max_pe = true ->
  exists kept,
    filter_by_pe min_pe max_pe m =
      (Ok (length (heap m)), after_filter m kept (PeLine (length kept))) /\
    kept `sublist_of` S /\
    forall s, s ∈ S -> field_is_nan "pe" s = true -> s ∈ kept.
Proof.
  intros Hst HS Hmin Hmax.
  exists (List.filter (pe_passes min_pe max_pe) S). repeat split.
  - apply filter_by_pe_run with (items := S); [assumption|].
    now rewrite filter_by_pe_loop_numeric.
  - apply filter_sublist.
  - intros s Hs Hnan. apply list_elem_of_In, List.filter_In.
    split; [now apply list_elem_of_In|now apply pe_passes_nan].
Qed.

Lemma filter_by_pe_keeps_nan_witness :
  exists kept,
    filter_by_pe (VInt 5) (VInt 15) (holding (VList nan_example)) =
      (Ok 1%nat,
       after_filter (holding (VList nan_example)) kept (PeLine (length kept))) /\
    kept `sublist_of` nan_example /\
    forall s, s ∈ nan_example -> field_is_nan "pe" s = true -> s ∈ kept.
Proof.
  apply (filter_by_pe_keeps_nan (holding (VList nan_example)) nan_example
           (VInt 5) (VInt 15) eq_refl ltac:(repeat constructor)
           eq_refl eq_refl).
Defined.

(** ** [filter_by_pe] and the order of the bounds *)

(** What a typed record is: a dict with no [pe], with [None], or with an
    ordered number. *)
Lemma pe_typed_cases s :
  pe_typed s = true ->
  field "pe" s = None \/ field "pe" s = Some VNone \/
  exists pe, field "pe" s = Some pe /\ is_None pe = false /\
             is_ordered_number pe = true.
Proof.
  unfold pe_typed. intros H. apply andb_true_iff in H as [_ H].
  destruct (field "pe" s) as [pe|]; [|now left]. right.
  destruct (is_None pe) eqn:Hn.
  - left. now destruct pe.
  - right. exists pe. auto.
Qed.

Lemma pe_kept_active min_pe max_pe s pe :
  field "pe" s = Some pe -> is_None pe = false ->
  py_truthy min_pe = true -> py_truthy max_pe = true ->
  pe_kept min_pe max_pe s = holds OpGe pe min_pe && holds OpLe pe max_pe.
Proof.
  intros Hf Hn Tmin Tmax. unfold pe_kept. now rewrite Hf, Hn, Tmin, Tmax.
Qed.

Lemma ordered_numbers a b :
  is_ordered_number a = true -> is_ordered_number b = true ->
  exists x y, as_number a = Some x /\ as_number b = Some y.
Proof.
  intros Ha Hb.
  destruct (is_ordered_number_inv _ Ha) as (x & Ex & _).
  destruct (is_ordered_number_inv _ Hb) as (y & Ey & _). eauto.
Qed.

Lemma typed_run min_pe max_pe m S :
  stored m = Some (VList S) ->
  Forall (fun s => pe_typed s = true) S ->
  bound_typed min_pe = true -> bound_typed max_pe = true ->
  filter_by_pe min_pe max_pe m =
    (Ok (length (heap m)),
     after_filter m (List.filter (pe_kept min_pe max_pe) S)
       (PeLine (length (List.filter (pe_kept min_pe max_pe) S)))).
Proof.
  intros Hst HS Hmin Hmax.
  apply filter_by_pe_run with (items := S); [assumption|].
  now rewrite filter_by_pe_loop_typed.
Qed.

Lemma ordered_bound_typed b : is_ordered_number b = true -> bound_typed b = true.
Proof. unfold bound_typed. intros ->. apply orb_true_r. Qed.

(** X2.  An inverted range selects nothing: with two bounds that are
    numbers other than zero and NaN and [max_pe < min_pe], [filter_by_pe]
    returns an empty list on every stored list of typed records. *)
Theorem filter_by_pe_inverted_range (m : machine) (S : list value)
    (min_pe max_pe : value) :
  stored m = Some (VList S) ->
  Forall (fun s => pe_typed s = true) S ->
  is_ordered_number min_pe = true ->
  is_ordered_number max_pe = true ->
  py_truthy min_pe = true ->
  py_truthy max_pe = true ->
  holds OpLt max_pe min_pe = true ->
  filter_by_pe min_pe max_pe m =
    (Ok (length (heap m)), after_filter m [] (PeLine 0)).
Proof.
  intros Hst HS Omin Omax Tmin Tmax Hinv.
  rewrite (typed_run min_pe max_pe m S) by auto using ordered_bound_typed.
  rewrite filter_nil_all; [reflexivity|].
  intros s Hs. rewrite Forall_forall in HS.
  destruct (pe_typed_cases s (HS s Hs)) as [Hf|[Hf|(pe & Hf & Hn & Ope)]].
  - unfold pe_kept. now rewrite Hf.
  - unfold pe_kept. now rewrite Hf.
  - rewrite (pe_kept_active _ _ _ pe) by assumption.
    destruct (ordered_numbers pe min_pe Ope Omin) as (x & a & Ex & Ea).
    destruct (ordered_numbers pe max_pe Ope Omax) as (x' & b & Ex' & Eb).
    rewrite Ex in Ex'. injection Ex' as <-.
    rewrite (holds_numbers _ _ _ _ _ Ex Ea), (holds_numbers _ _ _ _ _ Ex Eb).
    rewrite (holds_numbers _ _ _ _ _ Eb Ea) in Hinv.
    destruct (xnum_cmp OpGe x a) eqn:G; [|reflexivity].
    destruct (xnum_cmp OpLe x b) eqn:L; [|reflexivity].
    exfalso. exact (xnum_no_room x a b G L Hinv).
Qed.

Lemma filter_by_pe_inverted_range_witness :
  filter_by_pe (VInt 15) (VFloat 5) (holding (VList pe_example)) =
    (Ok 1%nat, after_filter (holding (VList pe_example)) [] (PeLine 0)).
Proof.
  apply (filter_by_pe_inverted_range (holding (VList pe_example)) pe_example
           (VInt 15) (VFloat 5) eq_refl ltac:(repeat constructor)
           eq_refl eq_refl eq_refl eq_refl eq_refl).
Defined.

(** X4.  Tightening a bound only removes records: for two numbers
    [a <= b], neither zero nor NaN, and any other bound, what
    [filter_by_pe] returns with the lower bound [b] is a subsequence of
    what it returns with the lower bound [a], and what it returns with the
    upper bound [a] is a subsequence of what it returns with the upper
    bound [b]. *)
Theorem filter_by_pe_narrowing (m : machine) (S : list value)
    (a b other : value) :
  stored m = Some (VList S) ->
  Forall (fun s => pe_typed s = true) S ->
  is_ordered_number a = true ->
  is_ordered_number b = true ->
  py_truthy a = true ->
  py_truthy b = true ->
  bound_typed other = true ->
  holds OpLe a b = true ->
  (exists wide narrow,
     filter_by_pe a other m =
       (Ok (length (heap m)), after_filter m wide (PeLine (length wide))) /\
     filter_by_pe b other m =
       (Ok (length (heap m)), after_filter m narrow (PeLine (length narrow))) /\
     narrow `sublist_of` wide) /\
  (exists wide narrow,
     filter_by_pe other b m =
       (Ok (length (heap m)), after_filter m wide (PeLine (length wide))) /\
     filter_by_pe other a m =
       (Ok (length (heap m)), after_filter m narrow (PeLine (length narrow))) /\
     narrow `sublist_of` wide).
Proof.
  intros Hst HS Oa Ob Ta Tb Ho Hab.
  destruct (ordered_numbers a b Oa Ob) as (xa & xb & Ea & Eb).
  rewrite (holds_numbers _ _ _ _ _ Ea Eb) in Hab.
  pose proof HS as HS'. rewrite Forall_forall in HS.
  split.
  - exists (List.filter (pe_kept a other) S), (List.filter (pe_kept b other) S).
    rewrite (typed_run a other m S), (typed_run b other m S)
      by auto using ordered_bound_typed.
    repeat split. apply filter_sublist_imp. intros s Hs.
    destruct (pe_typed_cases s (HS s Hs)) as [Hf|[Hf|(pe & Hf & Hn & Ope)]];
      unfold pe_kept; rewrite Hf; try discriminate.
    rewrite Hn, Ta, Tb. cbn [negb orb andb].
    destruct (ordered_numbers pe a Ope Oa) as (x & ? & Ex & Ea').
    rewrite Ea in Ea'. injection Ea' as <-.
    rewrite (holds_numbers _ _ _ _ _ Ex Ea), (holds_numbers _ _ _ _ _ Ex Eb).
    destruct (xnum_cmp OpGe x xb) eqn:G; [|discriminate].
    now rewrite (xnum_ge_weaken x xa xb Hab G).
  - exists (List.filter (pe_kept other b) S), (List.filter (pe_kept other a) S).
    rewrite (typed_run other b m S), (typed_run other a m S)
      by auto using ordered_bound_typed.
    repeat split. apply filter_sublist_imp. intros s Hs.
    destruct (pe_typed_cases s (HS s Hs)) as [Hf|[Hf|(pe & Hf & Hn & Ope)]];
      unfold pe_kept; rewrite Hf; try discriminate.
    rewrite Hn, Ta, Tb. cbn [negb orb andb].
    destruct (ordered_numbers pe a Ope Oa) as (x & ? & Ex & Ea').
    rewrite Ea in Ea'. injection Ea' as <-.
    rewrite (holds_numbers _ _ _ _ _ Ex Ea), (holds_numbers _ _ _ _ _ Ex Eb).
    destruct (negb (py_truthy other) || holds OpGe pe other); [|discriminate].
    cbn [andb].
    destruct (xnum_cmp OpLe x xa) eqn:L; [|discriminate].
    now rewrite (xnum_le_weaken x xa xb Hab L).
Qed.

Lemma filter_by_pe_narrowing_witness :
  exists wide narrow,
    filter_by_pe (VInt 5) VNone (holding (VList pe_example)) =
      (Ok 1%nat,
       after_filter (holding (VList pe_example)) wide (PeLine (length wide))) /\
    filter_by_pe (VFloat 12.5) VNone (holding (VList pe_example)) =
      (Ok 1%nat,
       after_filter (holding (VList pe_example)) narrow
         (PeLine (length narrow))) /\
    narrow `sublist_of` wide.
Proof.
  apply (proj1 (filter_by_pe_narrowing (holding (VList pe_example)) pe_example
                  (VInt 5) (VFloat 12.5) VNone eq_refl
                  ltac:(repeat constructor)
                  eq_refl eq_refl eq_refl eq_refl eq_refl eq_refl)).
Defined.

Lemma py_eq_numbers a b x y :
  as_number a = Some x -> as_number b = Some y -> py_eq a b = xnum_eqb x y.
Proof.
  intros Ha Hb.
  destruct a; try discriminate; destruct b; try discriminate;
    cbn [py_eq]; now rewrite Ha, Hb.
Qed.

Lemma xnum_between_eq x y :
  xnum_cmp OpGe x y && xnum_cmp OpLe x y = xnum_eqb x y.
Proof.
  unfold xnum_cmp, xnum_eqb. now destruct (xcompare x y) as [[]|].
Qed.

(** X5.  A range reduced to a point selects by [==]: with the same number
    [b], neither zero nor NaN, as both bounds, [filter_by_pe] returns
    exactly the records whose [pe] is equal to [b] in the sense of Python's
    [==] (so [5], [5.0] and, for [b = 1], [True]). *)
Theorem filter_by_pe_point (m : machine) (S : list value) (b : value) :
  stored m = Some (VList S) ->
  Forall (fun s => pe_typed s = true) S ->
  is_ordered_number b = true ->
  py_truthy b = true ->
  filter_by_pe b b m =
    (Ok (length (heap m)),
     after_filter m (List.filter (pe_equals b) S)
       (PeLine (length (List.filter (pe_equals b) S)))).
Proof.
  intros Hst HS Ob Tb.
  rewrite (typed_run b b m S) by auto using ordered_bound_typed.
  assert (E : List.filter (pe_kept b b) S = List.filter (pe_equals b) S).
  { apply filter_ext_in. intros s Hs. rewrite Forall_forall in HS.
    destruct (pe_typed_cases s (HS s Hs)) as [Hf|[Hf|(pe & Hf & Hn & Ope)]].
    - unfold pe_kept, pe_equals. now rewrite Hf.
    - unfold pe_kept, pe_equals. rewrite Hf. cbn [is_None negb andb].
      unfold is_ordered_number in Ob. now destruct b.
    - rewrite (pe_kept_active _ _ _ pe) by assumption.
      unfold pe_equals. rewrite Hf.
      destruct (ordered_numbers pe b Ope Ob) as (x & y & Ex & Ey).
      rewrite !(holds_numbers _ _ _ _ _ Ex Ey), (py_eq_numbers _ _ _ _ Ex Ey).
      apply xnum_between_eq. }
  now rewrite E.
Qed.

Lemma filter_by_pe_point_witness :
  filter_by_pe (VFloat 5) (VFloat 5) (holding (VList pe_example)) =
    (Ok 1%nat,
     after_filter (holding (VList pe_example)) [record "F" "pe" (VInt 5)]
       (PeLine 1)).
Proof.
  apply (filter_by_pe_point (holding (VList pe_example)) pe_example (VFloat 5)
           eq_refl ltac:(repeat constructor) eq_refl eq_refl).
Defined.

(** ** When a filter raises *)

(** A scan whose selection raises raises the same and leaves the machine
    as it was. *)
Lemma scan_stored_raise select report m items e :
  stored m = Some (VList items) -> select items = Raise e ->
  scan_stored select report m = (Raise e, m).
Proof.
  intros Hst Hsel. unfold stored in Hst.
  unfold scan_stored, bind, get_self_stocks, deref, lift. cbn.
  rewrite Hst. cbn. now rewrite Hsel.
Qed.

Lemma comprehension_raise cond pre s post e :
  (forall x, x ∈ pre -> exists b, cond x = Ok b) ->
  cond s = Raise e ->
  comprehension cond (pre ++ s :: post) = Raise e.
Proof.
  intros Hpre Hs. induction pre as [|x pre IH]; cbn [app comprehension].
  - now rewrite Hs.
  - destruct (Hpre x (list_elem_of_here x pre)) as [b ->]. cbn [rbind].
    rewrite IH; [reflexivity|]. intros y Hy. apply Hpre. now right.
Qed.

Lemma sector_cond_dict sector s :
  is_dict s = true -> sector_cond sector s = Ok (sector_is sector s).
Proof.
  destruct s as [| | | | | |d]; try discriminate. intros _.
  unfold sector_cond, sector_is. cbn [py_get field rbind]. reflexivity.
Qed.





Lemma richcmp_not_number op a b :
  is_number a = false -> is_number b = true ->
  py_richcmp op a b = Raise TypeError.
Proof.
  intros Ha Hb.
  destruct a; try discriminate; destruct b; try discriminate; reflexivity.
Qed.

(** X7.  The default of [top_dividend_stocks] covers a missing field, not a
    wrong one: when the records before it are typed and a record has a
    [div_yield] that is no number ([None] for a JSON [null], a string, a
    list), the comparison with a number raises [TypeError]; nothing is
    printed and nothing changes. *)
Theorem top_dividend_stocks_bad_yield (m : machine) (pre post : list value)
    (s y min_yield : value) :
  stored m = Some (VList (pre ++ s :: post)) ->
  Forall (fun x => yield_typed x = true) pre ->
  is_dict s = true ->
  field "div_yield" s = Some y ->
  is_number y = false ->
  is_number min_yield = true ->
  top_dividend_stocks min_yield m = (Raise TypeError, m).
Proof.
  intros Hst Hpre Hd Hf Hy Hmin.
  rewrite top_dividend_stocks_shape.
  apply scan_stored_raise with (items := pre ++ s :: post); [assumption|].
  apply comprehension_raise.
  - intros x Hx. exists (yield_at_least min_yield x).
    apply dividend_cond_typed; [assumption|].
    rewrite Forall_forall in Hpre. now apply Hpre.
  - destruct s as [| | | | | |d]; try discriminate.
    unfold dividend_cond. cbn [py_get field rbind] in *. rewrite Hf.
    now apply richcmp_not_number.
Qed.

Lemma top_dividend_stocks_bad_yield_witness :
  top_dividend_stocks default_min_yield (holding (VList null_yield_example)) =
    (Raise TypeError, holding (VList null_yield_example)).
Proof.
  apply (top_dividend_stocks_bad_yield (holding (VList null_yield_example))
           [record "A" "div_yield" (VFloat 0.1)]
           [record "C" "div_yield" (VFloat 0.03)]
           (record "B" "div_yield" VNone) VNone default_min_yield
           eq_refl ltac:(repeat constructor) eq_refl eq_refl eq_refl eq_refl).
Defined.

Lemma filter_by_pe_loop_app min_pe max_pe pre rest :
  bound_typed min_pe = true -> bound_typed max_pe = true ->
  Forall (fun s => pe_typed s = true) pre ->
  forall filtered,
    filter_by_pe_loop min_pe max_pe filtered (pre ++ rest) =
    filter_by_pe_loop min_pe max_pe
      (filtered ++ List.filter (pe_kept min_pe max_pe) pre) rest.
Proof.
  intros Hmin Hmax Hpre.
  induction Hpre as [|s pre Hs _ IH]; intros filtered; cbn [app List.filter].
  - now rewrite app_nil_r.
  - rewrite filter_by_pe_loop_step by assumption. rewrite IH.
    destruct (pe_kept min_pe max_pe s); [now rewrite <- app_assoc|reflexivity].
Qed.

(** X8.  A [pe] that is no number is compared as soon as a bound is active:
    when the records before it are typed, a record has a [pe] that is
    neither [None] nor a number, and one bound at least is a number other
    than zero, [filter_by_pe] raises [TypeError]; nothing is printed and
    nothing changes.  (With no active bound the same record is
    returned.) *)
Theorem filter_by_pe_bad_pe (m : machine) (pre post : list value)
    (s pe min_pe max_pe : value) :
  stored m = Some (VList (pre ++ s :: post)) ->
  Forall (fun x => pe_typed x = true) pre ->
  is_dict s = true ->
  field "pe" s = Some pe ->
  is_None pe = false ->
  is_number pe = false ->
  bound_typed min_pe = true ->
  bound_typed max_pe = true ->
  py_truthy min_pe || py_truthy max_pe = true ->
  filter_by_pe min_pe max_pe m = (Raise TypeError, m).
Proof.
  intros Hst Hpre Hd Hf Hn Hpe Hmin Hmax Hact.
  rewrite filter_by_pe_shape.
  apply scan_stored_raise with (items := pre ++ s :: post); [assumption|].
  rewrite filter_by_pe_loop_app by assumption.
  destruct s as [| | | | | |d]; try discriminate.
  cbn [filter_by_pe_loop py_get field rbind] in *. rewrite Hf, Hn.
  destruct (py_truthy min_pe) eqn:Tmin.
  - rewrite richcmp_not_number;
      [reflexivity|assumption|].
    apply is_ordered_is_number. now apply bound_typed_truthy.
  - cbn [rbind]. cbn [orb] in Hact. rewrite Hact.
    rewrite richcmp_not_number;
      [reflexivity|assumption|].
    apply is_ordered_is_number. now apply bound_typed_truthy.
Qed.

Lemma filter_by_pe_bad_pe_witness :
  filter_by_pe VNone (VInt 15) (holding (VList untyped_example)) =
    (Raise TypeError, holding (VList untyped_example)).
Proof.
  apply (filter_by_pe_bad_pe (holding (VList untyped_example)) []
           (tl untyped_example) (record "A" "pe" (VStr (str_of "n/a")))
           (VStr (str_of "n/a")) VNone (VInt 15)
           eq_refl ltac:(constructor) eq_refl eq_refl eq_refl eq_refl
           eq_refl eq_refl eq_refl).
Defined.

(** X9.  What a missing or a NaN yield does in [top_dividend_stocks]: on a
    stored list of typed records and with a number for [min_yield], a
    record without [div_yield] is returned exactly when [0 >= min_yield],
    so never with the default, and a record whose [div_yield] is NaN is
    never returned. *)
Theorem top_dividend_stocks_missing_yield (m : machine) (S : list value)
    (min_yield : value) :
  stored m = Some (VList S) ->
  Forall (fun s => yield_typed s = true) S ->
  is_number min_yield = true ->
  exists kept,
    top_dividend_stocks min_yield m =
      (Ok (length (heap m)), after_filter m kept (DividendLine (length kept))) /\
    (forall s, s ∈ S -> field "div_yield" s = None ->
               (s ∈ kept <-> holds OpGe (VInt 0) min_yield = true)) /\
    (forall s, s ∈ S -> field_is_nan "div_yield" s = true -> s ∉ kept) /\
    holds OpGe (VInt 0) default_min_yield = false.
Proof.
  intros Hst HS Hmin.
  exists (List.filter (yield_at_least min_yield) S). repeat split.
  - apply top_dividend_stocks_run with (items := S); [assumption|].
    apply comprehension_filter.
    eapply Forall_cond; [|exact HS].
    intros s Hs. now apply dividend_cond_typed.
  - intros Hin. apply list_elem_of_In, List.filter_In in Hin as [_ Hk].
    unfold yield_at_least, yield_of in Hk. now rewrite H0 in Hk.
  - intros Hk. apply list_elem_of_In, List.filter_In.
    split; [now apply list_elem_of_In|].
    unfold yield_at_least, yield_of. now rewrite H0.
  - intros s Hs Hnan Hin.
    apply list_elem_of_In, List.filter_In in Hin as [_ Hk].
    unfold yield_at_least, yield_of in Hk. unfold field_is_nan in Hnan.
    destruct (field "div_yield" s) as [[| | |f| | |]|]; try discriminate.
    now rewrite holds_nan_left in Hk.
Qed.

Lemma top_dividend_stocks_missing_yield_witness :
  exists kept,
    top_dividend_stocks (VInt 0) (holding (VList yields_example)) =
      (Ok 1%nat,
       after_filter (holding (VList yields_example)) kept
         (DividendLine (length kept))) /\
    (forall s, s ∈ yields_example -> field "div_yield" s = None ->
               (s ∈ kept <-> holds OpGe (VInt 0) (VInt 0) = true)).
Proof.
  destruct (top_dividend_stocks_missing_yield (holding (VList yields_example))
              yields_example (VInt 0) eq_refl ltac:(repeat constructor)
              eq_refl) as (kept & H1 & H2 & _).
  exists kept. split; assumption.
Defined.

(** ** How the methods compose *)

Lemma scan_stored_same_items select report select' report' m r m1 :
  scan_stored select report m = (Ok r, m1) ->
  same_items (scan_stored select' report') m m1 /\
  same_items (scan_stored select' report') m1 m.
Proof.
  intros Hrun.
  assert (Hst : stored m1 = stored m).
  { pose proof (proj1 (scan_stored_frame select report m)) as Hp.
    rewrite Hrun in Hp. apply Hp. }
  split; intros r' k Hg.
  - now apply (scan_stored_determined select' report' m m1 r' k).
  - now apply (scan_stored_determined select' report' m1 m r' k).
Qed.

(** X10.  The filters do not chain.  After any of the three filters has
    returned, each filter, with any arguments, selects from the machine it
    left exactly the items it selects from the machine before: a filter
    always reads the loaded list, never the result of an earlier filter. *)
Theorem filters_do_not_chain (m m1 : machine) (r : ref)
    (a b s y : value) :
  filter_by_pe a b m = (Ok r, m1) \/
  filter_sector s m = (Ok r, m1) \/
  top_dividend_stocks y m = (Ok r, m1) ->
  forall a' b' s' y',
    (same_items (filter_by_pe a' b') m m1 /\
     same_items (filter_by_pe a' b') m1 m) /\
    (same_items (filter_sector s') m m1 /\
     same_items (filter_sector s') m1 m) /\
    (same_items (top_dividend_stocks y') m m1 /\
     same_items (top_dividend_stocks y') m1 m).
Proof.
  intros Hrun a' b' s' y'.
  rewrite filter_by_pe_shape, filter_sector_shape, top_dividend_stocks_shape
    in Hrun.
  rewrite !filter_by_pe_shape, !filter_sector_shape,
    !top_dividend_stocks_shape.
  destruct Hrun as [Hrun|[Hrun|Hrun]];
    repeat split; apply (scan_stored_same_items _ _ _ _ _ _ _ Hrun).
Qed.

Lemma filters_do_not_chain_witness :
  same_items (top_dividend_stocks default_min_yield)
    (holding (VList pe_example))
    (after_filter (holding (VList pe_example))
       (List.filter (sector_is (VStr (str_of "Tech"))) pe_example)
       (SectorLine (VStr (str_of "Tech")) 0)) /\
  same_items (filter_by_pe (VInt 5) (VInt 15))
    (holding (VList pe_example))
    (after_filter (holding (VList pe_example))
       (List.filter (sector_is (VStr (str_of "Tech"))) pe_example)
       (SectorLine (VStr (str_of "Tech")) 0)).
Proof.
  pose proof (filters_do_not_chain (holding (VList pe_example))
                (after_filter (holding (VList pe_example))
                   (List.filter (sector_is (VStr (str_of "Tech"))) pe_example)
                   (SectorLine (VStr (str_of "Tech")) 0))
                1%nat VNone VNone (VStr (str_of "Tech")) VNone
                (or_intror (or_introl eq_refl))
                (VInt 5) (VInt 15) VNone default_min_yield) as H.
  split; [apply H|apply H].
Defined.

(** ** [load_stocks], path by path *)

Lemma load_stocks_cases pf url m :
  load_stocks pf url m =
  match requests_get pf url with
  | Raise e => (Raise e, requested m url)
  | Ok resp =>
      match json_loads (floats pf) (text resp) with
      | Raise e => (Raise e, requested m url)
      | Ok v =>
          match py_len v with
          | Ok n => (Ok tt, loaded m url v n)
          | Raise e => (Raise e, loaded_unsized m url v)
          end
      end
  end.
Proof.
  unfold load_stocks, bind, emit, lift, alloc, set_self_stocks, print, emit.
  cbn.
  destruct (requests_get pf url) as [resp|e]; [|reflexivity]. cbn.
  destruct (json_loads (floats pf) (text resp)) as [v|e]; [|reflexivity]. cbn.
  destruct (py_len v) as [n|e]; [|reflexivity].
  unfold loaded. cbn. now rewrite <- app_assoc.
Qed.

(** X11.  A load replaces what the screener holds, whatever that was: when
    the body parses to a list of dicts, [load_stocks] succeeds on every
    machine, the stored object is the new list, the [filters] attribute,
    the files and every object that existed are as before, and a filter
    called next selects from the new list alone ([filter_sector], with an
    argument that can be printed and holds no NaN). *)
Theorem load_stocks_replaces (pf : platform) (url : str) (m : machine)
    (resp : response) (S : list value) (sector : value) :
  requests_get pf url = Ok resp ->
  json_loads (floats pf) (text resp) = Ok (VList S) ->
  forallb is_dict S = true ->
  text_encodable sector = true ->
  no_nan sector = true ->
  exists m1,
    load_stocks pf url m = (Ok tt, m1) /\
    stored m1 = Some (VList S) /\
    filters (self m1) = filters (self m) /\
    files m1 = files m /\
    (forall r x, heap m !! r = Some x -> heap m1 !! r = Some x) /\
    filter_sector sector m1 =
      (Ok (length (heap m1)),
       after_filter m1 (List.filter (sector_is sector) S)
         (SectorLine sector (length (List.filter (sector_is sector) S)))).
Proof.
  intros Hget Hjson HS Hp _.
  exists (loaded m url (VList S) (length S)).
  assert (Hst : stored (loaded m url (VList S) (length S)) = Some (VList S)).
  { unfold stored. cbn. apply list_lookup_middle. reflexivity. }
  repeat split.
  - rewrite load_stocks_cases, Hget, Hjson. reflexivity.
  - exact Hst.
  - intros r x Hr. cbn. now apply lookup_app_l_Some.
  - rewrite (filter_sector_run sector _ S (List.filter (sector_is sector) S));
      [now rewrite Hp|exact Hst|].
    apply comprehension_filter. apply List.Forall_forall. intros s Hs.
    apply sector_cond_dict. rewrite forallb_forall in HS. now apply HS.
Qed.

Lemma load_stocks_replaces_witness :
  exists m1,
    load_stocks (serving 200 (json_dumps demo_codec (VList sectors_example)))
      default_api_url (holding (VList pe_example)) = (Ok tt, m1) /\
    stored m1 = Some (VList sectors_example).
Proof.
  destruct (load_stocks_replaces
              (serving 200 (json_dumps demo_codec (VList sectors_example)))
              default_api_url (holding (VList pe_example))
              {| status_code := 200;
                 text := json_dumps demo_codec (VList sectors_example) |}
              sectors_example (VStr (str_of "Tech"))
              eq_refl ltac:(vm_compute; reflexivity) eq_refl eq_refl eq_refl)
    as (m1 & H1 & H2 & _).
  exists m1. split; assumption.
Defined.

Lemma py_len_iter v e : py_len v = Raise e -> py_iter v = Raise TypeError.
Proof. destruct v; try discriminate; reflexivity. Qed.

Lemma py_len_raises v e : py_len v = Raise e -> e = TypeError.
Proof. destruct v; try discriminate; now intros [= <-]. Qed.

Lemma scan_stored_not_iterable select report m v :
  stored m = Some v -> py_iter v = Raise TypeError ->
  scan_stored select report m = (Raise TypeError, m).
Proof.
  intros Hst Hit. unfold stored in Hst.
  unfold scan_stored, bind, get_self_stocks, deref, lift. cbn.
  rewrite Hst. now rewrite Hit.
Qed.

(** X12.  A body that parses to [null], a boolean or a number: the parsed
    value is stored before its length is asked for, so [load_stocks] raises
    [TypeError] after a request, prints nothing, and leaves the screener
    holding that value; from then on each filter raises [TypeError] and
    changes nothing. *)
Theorem load_stocks_unsized (pf : platform) (url : str) (m : machine)
    (resp : response) (v : value) (e : exn) :
  requests_get pf url = Ok resp ->
  json_loads (floats pf) (text resp) = Ok v ->
  py_len v = Raise e ->
  load_stocks pf url m = (Raise TypeError, loaded_unsized m url v) /\
  stored (loaded_unsized m url v) = Some v /\
  forall a b s y,
    filter_by_pe a b (loaded_unsized m url v) =
      (Raise TypeError, loaded_unsized m url v) /\
    filter_sector s (loaded_unsized m url v) =
      (Raise TypeError, loaded_unsized m url v) /\
    top_dividend_stocks y (loaded_unsized m url v) =
      (Raise TypeError, loaded_unsized m url v).
Proof.
  intros Hget Hjson Hlen.
  assert (Hst : stored (loaded_unsized m url v) = Some v).
  { unfold stored. cbn. apply list_lookup_middle. reflexivity. }
  split; [|split; [exact Hst|]].
  - rewrite load_stocks_cases, Hget, Hjson, Hlen.
    now rewrite (py_len_raises v e Hlen).
  - intros a b s y.
    rewrite filter_by_pe_shape, filter_sector_shape, top_dividend_stocks_shape.
    repeat split; apply scan_stored_not_iterable with (v := v);
      eauto using py_len_iter.
Qed.

Lemma load_stocks_unsized_witness :
  load_stocks (serving 200 (str_of "null")) default_api_url
    (holding (VList pe_example)) =
    (Raise TypeError,
     loaded_unsized (holding (VList pe_example)) default_api_url VNone) /\
  stored (loaded_unsized (holding (VList pe_example)) default_api_url VNone) =
    Some VNone.
Proof.
  destruct (load_stocks_unsized (serving 200 (str_of "null")) default_api_url
              (holding (VList pe_example))
              {| status_code := 200; text := str_of "null" |} VNone TypeError
              eq_refl ltac:(vm_compute; reflexivity) eq_refl)
    as (H1 & H2 & _).
  split; assumption.
Defined.

(** X13.  A body that is a JSON object and not an array, as when the list
    comes wrapped: [load_stocks] succeeds and prints the number of keys;
    the filters then visit the keys, which are strings and have no [get],
    so each filter raises [AttributeError] and changes nothing. *)
Theorem load_stocks_object_body (pf : platform) (url : str) (m : machine)
    (resp : response) (d : list (str * value)) :
  requests_get pf url = Ok resp ->
  json_loads (floats pf) (text resp) = Ok (VDict d) ->
  d <> [] ->
  load_stocks pf url m = (Ok tt, loaded m url (VDict d) (length d)) /\
  forall a b s y,
    filter_by_pe a b (loaded m url (VDict d) (length d)) =
      (Raise AttributeError, loaded m url (VDict d) (length d)) /\
    filter_sector s (loaded m url (VDict d) (length d)) =
      (Raise AttributeError, loaded m url (VDict d) (length d)) /\
    top_dividend_stocks y (loaded m url (VDict d) (length d)) =
      (Raise AttributeError, loaded m url (VDict d) (length d)).
Proof.
  intros Hget Hjson Hd.
  split.
  - rewrite load_stocks_cases, Hget, Hjson. reflexivity.
  - intros a b s y.
    set (m1 := loaded m url (VDict d) (length d)).
    assert (Hst : heap m1 !! stocks (self m1) = Some (VDict d)).
    { cbn. apply list_lookup_middle. reflexivity. }
    destruct d as [|[k x] d]; [congruence|].
    unfold filter_by_pe, filter_sector, top_dividend_stocks, bind,
      get_self_stocks, deref, lift.
    rewrite Hst. cbn. auto.
Qed.

Lemma load_stocks_object_body_witness :
  load_stocks (serving 200 (json_dumps demo_codec wrapped_body))
    default_api_url (fresh ∅) =
    (Ok tt, loaded (fresh ∅) default_api_url wrapped_body 1) /\
  filter_sector (VStr (str_of "Tech"))
    (loaded (fresh ∅) default_api_url wrapped_body 1) =
    (Raise AttributeError, loaded (fresh ∅) default_api_url wrapped_body 1).
Proof.
  destruct (load_stocks_object_body
              (serving 200 (json_dumps demo_codec wrapped_body))
              default_api_url (fresh ∅)
              {| status_code := 200;
                 text := json_dumps demo_codec wrapped_body |}
              [(str_of "data", VList sectors_example)]
              eq_refl ltac:(vm_compute; reflexivity) ltac:(discriminate))
    as (H1 & H2).
  split; [exact H1|].
  apply (H2 VNone VNone (VStr (str_of "Tech")) VNone).
Defined.

(** ** Before any load *)

Lemma init_run m :
  init m =
  (Ok tt,
   {| heap := heap m ++ [VList []; VDict []];
      self := {| stocks := length (heap m);
                 filters := Datatypes.S (length (heap m)) |};
      files := files m; trace := trace m |}).
Proof.
  unfold init, bind, alloc, set_self_stocks, set_self_filters. cbn.
  rewrite <- app_assoc, length_app. cbn.
  repeat f_equal. lia.
Qed.


(** ** What the methods leave alone *)

Lemma export_filtered_cases pf r filename m :
  export_filtered pf r filename m =
  if can_open_w pf filename then
    if forallb utf8_encodable
         (json_dumps (floats pf)
            (match heap m !! r with Some v => v | None => VNone end))
    then
      if forallb utf8_encodable filename
      then (Ok tt,
            exported m filename
              (json_dumps (floats pf)
                 (match heap m !! r with Some v => v | None => VNone end)))
      else (Raise UnicodeEncodeError,
            written m filename
              (json_dumps (floats pf)
                 (match heap m !! r with Some v => v | None => VNone end)))
    else (Raise UnicodeEncodeError, export_broken m filename)
  else (Raise OSError,
        {| heap := heap m; self := self m; files := files m;
           trace := trace m ++ [Open filename] |}).
Proof.
  unfold export_filtered, bind, emit, lift, ret, write_file, deref, print, emit.
  cbn. destruct (can_open_w pf filename); [|reflexivity]. cbn.
  destruct (forallb utf8_encodable (json_dumps _ _)); cbn.
  - destruct (forallb utf8_encodable filename); cbn.
    + unfold exported. now rewrite insert_insert_eq, <- app_assoc.
    + unfold written. now rewrite insert_insert_eq.
  - unfold export_broken. now rewrite insert_insert_eq.
Qed.

Section Frames.

Context {A B : Type} (c : M A) (k : A -> M B).

Lemma only_allocates_bind :
  only_allocates c -> (forall a, only_allocates (k a)) ->
  only_allocates (bind c k).
Proof.
  intros Hc Hk m. unfold bind. specialize (Hc m).
  destruct (c m) as [[a|e] m']; cbn in *; [|exact Hc].
  etrans; [exact Hc|apply Hk].
Qed.

Lemma writes_only_bind filename :
  writes_only filename c -> (forall a, writes_only filename (k a)) ->
  writes_only filename (bind c k).
Proof.
  intros Hc Hk m f Hf. unfold bind. specialize (Hc m f Hf).
  destruct (c m) as [[a|e] m']; cbn in *; [|exact Hc].
  now rewrite (Hk a m' f Hf).
Qed.

Lemma writes_nothing_bind :
  writes_nothing c -> (forall a, writes_nothing (k a)) ->
  writes_nothing (bind c k).
Proof.
  intros Hc Hk m. unfold bind. specialize (Hc m).
  destruct (c m) as [[a|e] m']; cbn in *; [|exact Hc].
  now rewrite (Hk a m').
Qed.

End Frames.

Lemma writes_nothing_only {A} (c : M A) filename :
  writes_nothing c -> writes_only filename c.
Proof. intros H m f _. now rewrite H. Qed.

Lemma scan_stored_allocates select report :
  only_allocates (scan_stored select report).
Proof.
  intros m.
  destruct (scan_stored_cases select report m) as
    [[e ->]|(obj & items & kept & _ & _ & _ & ->)]; cbn.
  - reflexivity.
  - destruct (printable (report (length kept))); cbn; now apply prefix_app_r.
Qed.

Lemma scan_stored_writes_nothing select report :
  writes_nothing (scan_stored select report).
Proof.
  intros m.
  destruct (scan_stored_cases select report m) as
    [[e ->]|(obj & items & kept & _ & _ & _ & ->)]; [reflexivity|].
  destruct (printable (report (length kept))); reflexivity.
Qed.

Lemma init_allocates : only_allocates init.
Proof. intros m. rewrite init_run. cbn. now apply prefix_app_r. Qed.

Lemma init_writes_nothing : writes_nothing init.
Proof. intros m. now rewrite init_run. Qed.

Lemma load_stocks_allocates pf url : only_allocates (load_stocks pf url).
Proof.
  intros m. rewrite load_stocks_cases.
  destruct (requests_get pf url) as [resp|e]; [|reflexivity].
  destruct (json_loads _ _) as [v|e]; [|reflexivity].
  destruct (py_len v); cbn; now apply prefix_app_r.
Qed.

Lemma load_stocks_writes_nothing pf url : writes_nothing (load_stocks pf url).
Proof.
  intros m. rewrite load_stocks_cases.
  destruct (requests_get pf url) as [resp|e]; [|reflexivity].
  destruct (json_loads _ _) as [v|e]; [|reflexivity].
  destruct (py_len v); reflexivity.
Qed.

Lemma export_filtered_allocates pf r filename :
  only_allocates (export_filtered pf r filename).
Proof.
  intros m. rewrite export_filtered_cases.
  destruct (can_open_w pf filename); [|reflexivity].
  destruct (forallb utf8_encodable (json_dumps _ _)); [|reflexivity].
  destruct (forallb utf8_encodable filename); reflexivity.
Qed.

Lemma export_filtered_writes_only pf r filename :
  writes_only filename (export_filtered pf r filename).
Proof.
  intros m f Hf. rewrite export_filtered_cases.
  destruct (can_open_w pf filename); [|reflexivity].
  destruct (forallb utf8_encodable (json_dumps _ _));
    [destruct (forallb utf8_encodable filename)|];
    cbn; now rewrite lookup_insert_ne.
Qed.

Lemma main_allocates pf : only_allocates (main pf).
Proof.
  unfold main.
  apply only_allocates_bind; [apply init_allocates|intros _].
  apply only_allocates_bind; [apply load_stocks_allocates|intros _].
  apply only_allocates_bind;
    [rewrite filter_by_pe_shape; apply scan_stored_allocates|intros r].
  apply export_filtered_allocates.
Qed.

Lemma main_writes_only pf : writes_only pe_stocks_json (main pf).
Proof.
  unfold main.
  apply writes_only_bind;
    [apply writes_nothing_only, init_writes_nothing|intros _].
  apply writes_only_bind;
    [apply writes_nothing_only, load_stocks_writes_nothing|intros _].
  apply writes_only_bind;
    [rewrite filter_by_pe_shape;
     apply writes_nothing_only, scan_stored_writes_nothing|intros r].
  apply export_filtered_writes_only.
Qed.

(** X15.  No method changes an object that exists: after [__init__],
    [load_stocks], each filter, [export_filtered] and the whole script, on
    every path and also when they raise, the store begins with the store
    there was before.  A list a filter returned therefore keeps its items
    through every later load, filter and export. *)
Theorem methods_only_allocate (pf : platform) (url filename : str)
    (a b s y : value) (r : ref) :
  only_allocates init /\
  only_allocates (load_stocks pf url) /\
  only_allocates (filter_by_pe a b) /\
  only_allocates (filter_sector s) /\
  only_allocates (top_dividend_stocks y) /\
  only_allocates (export_filtered pf r filename) /\
  only_allocates (main pf).
Proof.
  rewrite filter_by_pe_shape, filter_sector_shape, top_dividend_stocks_shape.
  repeat split;
    auto using init_allocates, load_stocks_allocates, scan_stored_allocates,
      export_filtered_allocates, main_allocates.
Qed.

(** X16.  Only [export_filtered] writes, and only the file it is given:
    [__init__], [load_stocks] and the filters leave every file as it was,
    on every path; [export_filtered] leaves every file other than
    [filename] as it was, and all of them when the file cannot be opened;
    the script leaves every file other than [pe_stocks.json] as it was. *)
Theorem only_export_writes (pf : platform) (url filename : str)
    (a b s y : value) (r : ref) :
  writes_nothing init /\
  writes_nothing (load_stocks pf url) /\
  writes_nothing (filter_by_pe a b) /\
  writes_nothing (filter_sector s) /\
  writes_nothing (top_dividend_stocks y) /\
  writes_only filename (export_filtered pf r filename) /\
  (forall m, can_open_w pf filename = false ->
             export_filtered pf r filename m =
               (Raise OSError,
                {| heap := heap m; self := self m; files := files m;
                   trace := trace m ++ [Open filename] |})) /\
  writes_only pe_stocks_json (main pf).
Proof.
  rewrite filter_by_pe_shape, filter_sector_shape, top_dividend_stocks_shape.
  repeat split;
    auto using init_writes_nothing, load_stocks_writes_nothing,
      scan_stored_writes_nothing, export_filtered_writes_only,
      main_writes_only.
  intros m Hw. now apply export_filtered_unwritable.
Qed.



Lemma bind_raises {A B} (c : M A) (k : A -> M B) m :
  (forall a m', exists e, fst (k a m') = Raise e) ->
  exists e, fst (bind c k m) = Raise e.
Proof.
  intros Hk. unfold bind. destruct (c m) as [[a|e] m']; [apply Hk|].
  now exists e.
Qed.

(** X18.  The script cannot succeed when [pe_stocks.json] cannot be opened
    for writing: whatever the network answers, it raises, and no file has
    changed. *)
Theorem main_unwritable (pf : platform) (m : machine) :
  can_open_w pf pe_stocks_json = false ->
  (exists e, fst (main pf m) = Raise e) /\
  files (snd (main pf m)) = files m.
Proof.
  intros Hw. split.
  - unfold main. do 3 (apply bind_raises; intros ? ?).
    rewrite export_filtered_unwritable by exact Hw. now exists OSError.
  - unfold main.
    apply (writes_nothing_bind init _ init_writes_nothing). intros _.
    apply (writes_nothing_bind _ _ (load_stocks_writes_nothing _ _)).
    intros _.
    apply writes_nothing_bind;
      [rewrite filter_by_pe_shape; apply scan_stored_writes_nothing|].
    intros r m'. now rewrite export_filtered_unwritable by exact Hw.
Qed.

Lemma main_unwritable_witness :
  (exists e,
     fst (main (read_only (json_dumps demo_codec (VList served_example)))
            (start ∅)) = Raise e) /\
  files (snd (main (read_only (json_dumps demo_codec (VList served_example)))
                (start ∅))) = ∅.
Proof.
  apply (main_unwritable
           (read_only (json_dumps demo_codec (VList served_example)))
           (start ∅) eq_refl).
Defined.

(** ** Raising the threshold *)

Lemma yield_of_number s : yield_typed s = true -> is_number (yield_of s) = true.
Proof.
  unfold yield_typed, yield_of. intros H. apply andb_true_iff in H as [_ H].
  now destruct (field "div_yield" s).
Qed.

(** X19.  Raising the threshold of [top_dividend_stocks] never adds a
    record: on a stored list of typed records, for numbers [a <= b], the
    list returned for [b] is a sublist of the list returned for [a], in
    the same order. *)
Theorem top_dividend_stocks_narrowing (m : machine) (S : list value)
    (a b : value) :
  stored m = Some (VList S) ->
  Forall (fun s => yield_typed s = true) S ->
  is_number a = true ->
  is_number b = true ->
  holds OpLe a b = true ->
  exists wide narrow,
    top_dividend_stocks a m =
      (Ok (length (heap m)),
       after_filter m wide (DividendLine (length wide))) /\
    top_dividend_stocks b m =
      (Ok (length (heap m)),
       after_filter m narrow (DividendLine (length narrow))) /\
    narrow `sublist_of` wide.
Proof.
  intros Hst HS Na Nb Hab.
  exists (List.filter (yield_at_least a) S), (List.filter (yield_at_least b) S).
  repeat split.
  - apply top_dividend_stocks_run with (items := S); [assumption|].
    apply comprehension_filter. eapply Forall_cond; [|exact HS].
    intros s Hs. now apply dividend_cond_typed.
  - apply top_dividend_stocks_run with (items := S); [assumption|].
    apply comprehension_filter. eapply Forall_cond; [|exact HS].
    intros s Hs. now apply dividend_cond_typed.
  - apply filter_sublist_imp. intros s Hs.
    rewrite Forall_forall in HS.
    destruct (is_number_inv _ (yield_of_number s (HS s Hs))) as (x & Ex).
    destruct (is_number_inv _ Na) as (xa & Ea).
    destruct (is_number_inv _ Nb) as (xb & Eb).
    unfold yield_at_least.
    rewrite (holds_numbers _ _ _ _ _ Ea Eb) in Hab.
    rewrite (holds_numbers _ _ _ _ _ Ex Ea), (holds_numbers _ _ _ _ _ Ex Eb).
    now apply xnum_ge_weaken.
Qed.

Lemma top_dividend_stocks_narrowing_witness :
  exists wide narrow,
    top_dividend_stocks (VFloat 0.03) (holding (VList yields_example)) =
      (Ok 1%nat,
       after_filter (holding (VList yields_example)) wide
         (DividendLine (length wide))) /\
    top_dividend_stocks (VFloat 0.1) (holding (VList yields_example)) =
      (Ok 1%nat,
       after_filter (holding (VList yields_example)) narrow
         (DividendLine (length narrow))) /\
    narrow `sublist_of` wide.
Proof.
  apply (top_dividend_stocks_narrowing (holding (VList yields_example))
           yields_example (VFloat 0.03) (VFloat 0.1) eq_refl
           ltac:(repeat constructor) eq_refl eq_refl
           ltac:(vm_compute; reflexivity)).
Defined.
